(** * bipartite_embeddings.evaluator: a shallow embedding of the Evaluator

    The development follows [src/bipartite_embeddings/evaluator.py].
    An array cell is represented by the rational it holds ([Q]), the
    arithmetic and the equality test on cells being those of the array's
    dtype ([Dtype]); a 2-D [ndarray] is the list of its rows; Python
    exceptions are values of [exn]; the mutable
    [Evaluator] object and the calls it makes to its collaborators are
    threaded through a state-and-exception monad whose state survives a
    raise. *)

From Stdlib Require Import String.
From Stdlib Require Import List ZArith QArith Bool Arith Lia.
From Stdlib Require Import Permutation Sorted.
Import ListNotations.

Set Implicit Arguments.

(* ===================================================================== *)
(** * Python values, exceptions and indexing                              *)
(* ===================================================================== *)

Inductive exn : Type :=
| ValueError (msg : string)
| IndexError
| AttributeError (name : string)
| TypeError.

Inductive result (A : Type) : Type :=
| Ok (a : A)
| Raise (e : exn).

Arguments Ok {A} a.
Arguments Raise {A} e.

Definition is_ok {A} (r : result A) : bool :=
  match r with Ok _ => true | Raise _ => false end.

(** A list comprehension whose body may raise: the first failing element
    aborts the comprehension. *)
Fixpoint mapR {A B} (f : A -> result B) (l : list A) : result (list B) :=
  match l with
  | [] => Ok []
  | x :: l' =>
      match f x with
      | Raise e => Raise e
      | Ok y => match mapR f l' with
                | Raise e => Raise e
                | Ok ys => Ok (y :: ys)
                end
      end
  end.

(** [a[i]] on a sequence: negative indices count from the end, anything
    outside [-len, len) raises IndexError. *)
Definition getitem {A} (a : list A) (i : Z) : result A :=
  let n := Z.of_nat (length a) in
  let j := if (i <? 0)%Z then (i + n)%Z else i in
  if ((0 <=? j) && (j <? n))%Z
  then match nth_error a (Z.to_nat j) with
       | Some x => Ok x
       | None => Raise IndexError
       end
  else Raise IndexError.

(** [a[-k:]]: the last [k] elements, all of them when there are fewer. *)
Definition lastn {A} (k : nat) (a : list A) : list A :=
  skipn (length a - k) a.

(** Python's [enumerate]-style map. *)
Fixpoint mapi_from {A B} (i : nat) (f : nat -> A -> B) (l : list A) : list B :=
  match l with
  | [] => []
  | x :: l' => f i x :: mapi_from (S i) f l'
  end.

Definition mapi {A B} (f : nat -> A -> B) (l : list A) : list B :=
  mapi_from 0 f l.

(* ===================================================================== *)
(** * constants.py                                                        *)
(* ===================================================================== *)

Inductive SampleType : Type := TRAIN | TEST.

Inductive EdgeOperator : Type := CONCAT | HADAMARD | AVERAGE.

Inductive SimilarityMeasure : Type := COSINE | HAMMING | DOT_PRODUCT.

Definition SampleType_eqb (a b : SampleType) : bool :=
  match a, b with
  | TRAIN, TRAIN | TEST, TEST => true
  | _, _ => false
  end.

(** [str()] of an optional enum member, as an f-string renders it. *)
Definition str_EdgeOperator (o : option EdgeOperator) : string :=
  match o with
  | None => "None"
  | Some CONCAT => "EdgeOperator.CONCAT"
  | Some HADAMARD => "EdgeOperator.HADAMARD"
  | Some AVERAGE => "EdgeOperator.AVERAGE"
  end.

Definition str_SimilarityMeasure (o : option SimilarityMeasure) : string :=
  match o with
  | None => "None"
  | Some COSINE => "SimilarityMeasure.COSINE"
  | Some HAMMING => "SimilarityMeasure.HAMMING"
  | Some DOT_PRODUCT => "SimilarityMeasure.DOT_PRODUCT"
  end.

(* ===================================================================== *)
(** * Arrays                                                              *)
(* ===================================================================== *)

Abbreviation vec := (list Q) (only parsing).
Abbreviation ndarray := (list (list Q)) (only parsing).

(** Element-wise binary operation on two rows of one matrix. *)
Fixpoint zip_with {A B C} (f : A -> B -> C) (u : list A) (v : list B) : list C :=
  match u, v with
  | x :: u', y :: v' => f x y :: zip_with f u' v'
  | _, _ => []
  end.

(** [np.concatenate((u, v))] *)
Definition np_concatenate (u v : vec) : vec := u ++ v.

(** The arithmetic of the arrays' dtype.  numpy computes in a fixed-width
    type: integer products wrap around, floating-point sums, products and
    quotients round, and [==] on floats is not reflexive (NaN differs from
    itself).  A cell is modelled by the rational it holds; the product, the
    sum and the division by two of the edge operators and the equality
    test of the HAMMING measure are those of the dtype, of which only
    commutativity and symmetry are assumed. *)
Class Dtype : Type := {
  dt_mul : Q -> Q -> Q;
  dt_add : Q -> Q -> Q;
  dt_half : Q -> Q;
  dt_eqb : Q -> Q -> bool;
  dt_mul_comm : forall x y, dt_mul x y = dt_mul y x;
  dt_add_comm : forall x y, dt_add x y = dt_add y x;
  dt_eqb_sym : forall x y, dt_eqb x y = dt_eqb y x
}.

(** [np.multiply(u, v)] *)
Definition np_multiply {dt : Dtype} (u v : vec) : vec := zip_with dt_mul u v.

(** [(u + v) / 2] *)
Definition np_average {dt : Dtype} (u v : vec) : vec :=
  map dt_half (zip_with dt_add u v).

(** [np.tril(m, k)]: entry (i, j) is kept when [j <= i + k], else zeroed. *)
Definition tril_keep (k : Z) (i j : nat) : bool :=
  (Z.of_nat j <=? Z.of_nat i + k)%Z.

Definition np_tril (m : ndarray) (k : Z) : ndarray :=
  mapi (fun i row => mapi (fun j x => if tril_keep k i j then x else 0%Q) row) m.

(** [m.ravel()] and [m.shape] of a 2-D array. *)
Definition ravel (m : ndarray) : list Q := concat m.

Definition shape (m : ndarray) : nat * nat :=
  (length m, match m with [] => 0%nat | r :: _ => length r end).

(** [m[i, j]], with 0 for a position outside the array (only used in
    statements, on positions inside it). *)
Definition entry (m : ndarray) (i j : nat) : Q := nth j (nth i m []) 0%Q.

(** The HAMMING measure: [(E[:, None, :] == E).sum(2)], the number of
    coordinates on which two rows agree. *)
Fixpoint count_eq {dt : Dtype} (u v : vec) : nat :=
  match u, v with
  | x :: u', y :: v' => ((if dt_eqb x y then 1 else 0) + count_eq u' v')%nat
  | _, _ => 0%nat
  end.

Definition hamming {dt : Dtype} (E : ndarray) : ndarray :=
  map (fun u => map (fun v => inject_Z (Z.of_nat (count_eq u v))) E) E.

(** The DOT_PRODUCT measure: [np.dot(E, E.T)], entry (i, j) is the dot
    product of rows i and j. *)
Definition dotv (u v : vec) : Q := fold_right Qplus 0%Q (zip_with Qmult u v).

Definition dot_transpose (E : ndarray) : ndarray :=
  map (fun u => map (fun v => dotv u v) E) E.

(* ===================================================================== *)
(** * Edge operators                                                      *)
(* ===================================================================== *)

(** The body of the three list comprehensions of [get_edge_embeddings]. *)
Definition edge_vector {dt : Dtype} (op : EdgeOperator) (eu ev : vec) : vec :=
  match op with
  | CONCAT => np_concatenate eu ev
  | HADAMARD => np_multiply eu ev
  | AVERAGE => np_average eu ev
  end.

(* ===================================================================== *)
(** * Collaborators                                                       *)
(* ===================================================================== *)

(** [nx.Graph]: an undirected graph over integer node identifiers. *)
Record Graph : Type := mkGraph {
  nodes : list Z;
  edges : list (Z * Z)
}.

(** [g.has_edge(u, v)], symmetric in an undirected graph. *)
Definition has_edge (g : Graph) (u v : Z) : bool :=
  existsb (fun e => ((fst e =? u) && (snd e =? v)) || ((fst e =? v) && (snd e =? u)))%Z
          (edges g).

(** Modelled from the spec: the values a sample bundle holds.  The
    utilities module that builds the bundle is not among the sources; the
    spec lists a train and a test subgraph, two sequences of node-id pairs
    and two sequences of 0/1 labels. *)
Inductive pyobj : Type :=
| PyGraph (g : Graph)
| PyEdgeIds (ids : list (Z * Z))
| PyLabels (ys : list Z).

(** Modelled from the spec: [DotDict], the type [get_samples] returns,
    defined in the utilities module that is not among the sources.  It is
    the sample bundle of the spec's data model, with its six fields: the
    train and test subgraphs, the two ordered sequences of node-id pairs
    and the two label sequences. *)
Record DotDict : Type := mkDotDict {
  G_train : Graph;
  G_test : Graph;
  edge_ids_train : list (Z * Z);
  edge_ids_test : list (Z * Z);
  edge_labels_train : list Z;
  edge_labels_test : list Z
}.

(** Python's truth value of a bundle.  A bundle holds its six fields: as a
    dict it is not empty, as a plain object it has the default truth
    value, so it is truthy either way. *)
Definition truthy (d : DotDict) : bool :=
  match d with mkDotDict _ _ _ _ _ _ => true end.

(** Attribute access by name; a name the bundle does not have raises. *)
Definition dict_get (d : DotDict) (k : string) : option pyobj :=
  if String.eqb k "G_train" then Some (PyGraph (G_train d))
  else if String.eqb k "G_test" then Some (PyGraph (G_test d))
  else if String.eqb k "edge_ids_train" then Some (PyEdgeIds (edge_ids_train d))
  else if String.eqb k "edge_ids_test" then Some (PyEdgeIds (edge_ids_test d))
  else if String.eqb k "edge_labels_train" then Some (PyLabels (edge_labels_train d))
  else if String.eqb k "edge_labels_test" then Some (PyLabels (edge_labels_test d))
  else None.

Definition attr_graph (d : DotDict) (k : string) : result Graph :=
  match dict_get d k with
  | Some (PyGraph g) => Ok g
  | Some _ => Raise TypeError
  | None => Raise (AttributeError k)
  end.

Definition attr_edge_ids (d : DotDict) (k : string) : result (list (Z * Z)) :=
  match dict_get d k with
  | Some (PyEdgeIds ids) => Ok ids
  | Some _ => Raise TypeError
  | None => Raise (AttributeError k)
  end.

Definition attr_labels (d : DotDict) (k : string) : result (list Z) :=
  match dict_get d k with
  | Some (PyLabels ys) => Ok ys
  | Some _ => Raise TypeError
  | None => Raise (AttributeError k)
  end.

Arguments attr_graph : simpl never.
Arguments attr_edge_ids : simpl never.
Arguments attr_labels : simpl never.

(** The two protocols of evaluator.py.  [fit] mutates the object, so it is
    a transformer of the object's state.  A classifier is an arbitrary
    object: [clf_bool] is Python's truth value of it, which runs the
    object's [__bool__] or [__len__] when it has one, and so can be false
    or raise. *)
Class EmbeddingModel (M : Type) : Type := {
  fit : Graph -> M -> M;
  get_embedding : M -> ndarray
}.

Class ClassifierEstimator (C : Type) : Type := {
  clf_bool : C -> result bool;
  clf_fit : list vec -> list Z -> C -> C;
  predict : C -> list vec -> list Z;
  predict_proba : C -> list vec -> ndarray
}.

(** numpy's selection and sorting routines.  [np.argpartition] (introselect)
    and [np.argsort] (quicksort) fix the order of their output only up to
    what their documentation promises, so they are taken with that contract
    rather than with one particular tie-breaking. *)
Definition norm_kth (kth : Z) (n : nat) : Z :=
  if (kth <? 0)%Z then (kth + Z.of_nat n)%Z else kth.

Definition kth_in_bounds (kth : Z) (n : nat) : bool :=
  ((0 <=? norm_kth kth n) && (norm_kth kth n <? Z.of_nat n))%Z.

Definition val (a : list Q) (i : nat) : Q := nth i a 0%Q.

Record Numpy : Type := mkNumpy {
  argpartition : list Q -> Z -> result (list nat);
  argsort : list Q -> list nat
}.

Record NumpyContract (np : Numpy) : Prop := mkNumpyContract {
  (** kth outside a non-empty array is a ValueError *)
  argpartition_out_of_bounds : forall a kth,
    a <> [] -> kth_in_bounds kth (length a) = false ->
    exists msg, argpartition np a kth = Raise (ValueError msg);
  (** otherwise the call returns *)
  argpartition_returns : forall a kth,
    kth_in_bounds kth (length a) = true -> is_ok (argpartition np a kth) = true;
  (** what it returns is the index array 0..len-1, reordered *)
  argpartition_perm : forall a kth p,
    argpartition np a kth = Ok p -> Permutation p (seq 0 (length a));
  (** the index at position kth is where a sort would put it: no larger
      value before it, no smaller value after it *)
  argpartition_pivot : forall a kth p,
    argpartition np a kth = Ok p -> kth_in_bounds kth (length a) = true ->
    forall i, (i < length a)%nat ->
      let k := Z.to_nat (norm_kth kth (length a)) in
      ((i <= k)%nat -> (val a (nth i p 0%nat) <= val a (nth k p 0%nat))%Q) /\
      ((k <= i)%nat -> (val a (nth k p 0%nat) <= val a (nth i p 0%nat))%Q);
  (** argsort returns the indices that sort the array in ascending order *)
  argsort_perm : forall a, Permutation (argsort np a) (seq 0 (length a));
  argsort_sorted : forall a i j,
    (i <= j < length a)%nat ->
    (val a (nth i (argsort np a) 0%nat) <= val a (nth j (argsort np a) 0%nat))%Q
}.

(** [np.unravel_index(indices, shape)] for a 2-D shape; a flat index
    outside the shape is a ValueError. *)
Definition unravel_index (indices : list nat) (shp : nat * nat)
  : result (list nat * list nat) :=
  let (r, c) := shp in
  if forallb (fun i => i <? r * c)%nat indices
  then Ok (map (fun i => i / c)%nat indices, map (fun i => i mod c)%nat indices)
  else Raise (ValueError "index out of bounds for array with the given shape").

(** [a[indices]] with an integer index array. *)
Definition take {A} (a : list A) (indices : list nat) : result (list A) :=
  mapR (fun i => getitem a (Z.of_nat i)) indices.

(** Lines 160-164 of evaluator.py: the ranked node pairs. *)
Definition top100 (np : Numpy) (similarities : ndarray) : result (list (nat * nat)) :=
  let flat := ravel similarities in
  match argpartition np flat (-100) with
  | Raise e => Raise e
  | Ok part =>
      let indices := lastn 100 part in
      match take flat indices with
      | Raise e => Raise e
      | Ok vals =>
          match take indices (argsort np vals) with
          | Raise e => Raise e
          | Ok sorted =>
              let indices := rev sorted in
              match unravel_index indices (shape similarities) with
              | Raise e => Raise e
              | Ok (rows, cols) => Ok (combine rows cols)
              end
          end
      end
  end.

(** Lines 169-181: the true-positive loop. *)
Definition count_tp (g : Graph) (pairs : list (nat * nat)) : nat :=
  fold_left (fun tp idx =>
               if has_edge g (Z.of_nat (fst idx)) (Z.of_nat (snd idx))
               then S tp else tp)
            pairs 0%nat.

Definition config_error_msg : string :=
  "ROC AUC score can only be computed when classifier and embedding operator are both set".

Definition unknown_operator_msg (o : option EdgeOperator) : string :=
  "Unknown edge operator: " ++ str_EdgeOperator o.

Definition unknown_measure_msg (o : option SimilarityMeasure) : string :=
  "Unknown similarity measure: " ++ str_SimilarityMeasure o.

Definition EdgeOperator_eqb (a : option EdgeOperator) (b : EdgeOperator) : bool :=
  match a, b with
  | Some CONCAT, CONCAT | Some HADAMARD, HADAMARD | Some AVERAGE, AVERAGE => true
  | _, _ => false
  end.

Definition SimilarityMeasure_eqb (a : option SimilarityMeasure) (b : SimilarityMeasure) : bool :=
  match a, b with
  | Some COSINE, COSINE | Some HAMMING, HAMMING | Some DOT_PRODUCT, DOT_PRODUCT => true
  | _, _ => false
  end.

(** Python's [not x] on an optional enum member: members of a plain Enum
    are truthy, only [None] is falsy. *)
Definition not_obj {A} (x : option A) : bool :=
  match x with None => true | Some _ => false end.

(** [not self.classifier]: [None] is falsy, a classifier has the truth
    value its class gives it. *)
Definition not_classifier {C} `{ClassifierEstimator C} (x : option C) : result bool :=
  match x with
  | None => Ok true
  | Some c => match clf_bool c with
              | Ok b => Ok (negb b)
              | Raise e => Raise e
              end
  end.

(** [not self._samples]: [None] is falsy, a bundle has its truth value. *)
Definition not_samples (x : option DotDict) : bool :=
  match x with None => true | Some d => negb (truthy d) end.

(* ===================================================================== *)
(** * class Evaluator                                                     *)
(* ===================================================================== *)

Section Evaluator.

Context {dt : Dtype} {M C : Type} `{EmbeddingModel M} `{ClassifierEstimator C}.

(** External functions.  The splitter may answer differently from one call
    to the next (a random split): it is given the number of calls made
    before. *)
Variable get_train_test_samples : Graph -> nat -> DotDict.
Variable roc_auc_score : list Z -> list Q -> Q.
Variable cosine_similarity : ndarray -> ndarray.
Variable np : Numpy.

Record Evaluator : Type := mkEvaluator {
  graph : Graph;
  embedding_model : M;
  classifier : option C;
  embedding_operator : option EdgeOperator;
  _samples : option DotDict
}.

(** Calls that leave the Evaluator: they are recorded, newest first. *)
Inductive Event : Type :=
| EvSplit (g : Graph)
| EvFit (g : Graph)
| EvClfFit (x : list vec) (y : list Z)
| EvPredictProba (x : list vec).

Record World : Type := mkWorld {
  self : Evaluator;
  trace : list Event
}.

Definition is_split (e : Event) : bool :=
  match e with EvSplit _ => true | _ => false end.

Definition n_splits (w : World) : nat := length (filter is_split (trace w)).

(** Computations over the world; the world reached so far is kept when an
    exception is raised. *)
Definition Py (A : Type) : Type := World -> result A * World.

Definition ret {A} (a : A) : Py A := fun w => (Ok a, w).

Definition raise {A} (e : exn) : Py A := fun w => (Raise e, w).

Definition bind {A B} (c : Py A) (k : A -> Py B) : Py B :=
  fun w => match c w with
           | (Ok a, w') => k a w'
           | (Raise e, w') => (Raise e, w')
           end.

Definition lift {A} (r : result A) : Py A := fun w => (r, w).

Definition gets {A} (f : Evaluator -> A) : Py A := fun w => (Ok (f (self w)), w).

Notation "x <- c ;; k" := (bind c (fun x => k))
  (at level 61, c at next level, right associativity).
Notation "c ;;; k" := (bind c (fun _ => k))
  (at level 61, right associativity).

Definition set_samples (d : DotDict) : Py unit := fun w =>
  let e := self w in
  (Ok tt, mkWorld (mkEvaluator (graph e) (embedding_model e) (classifier e)
                               (embedding_operator e) (Some d))
                  (trace w)).

(** [self.embedding_model.fit(g)] *)
Definition model_fit (g : Graph) : Py unit := fun w =>
  let e := self w in
  (Ok tt, mkWorld (mkEvaluator (graph e) (fit g (embedding_model e)) (classifier e)
                               (embedding_operator e) (_samples e))
                  (EvFit g :: trace w)).

(** [self.embedding_model.get_embedding()] *)
Definition model_get_embedding : Py ndarray :=
  gets (fun e => get_embedding (embedding_model e)).

(** [self.classifier.fit(x, y)] *)
Definition classifier_fit (x : list vec) (y : list Z) : Py unit := fun w =>
  let e := self w in
  match classifier e with
  | None => (Raise (AttributeError "fit"), w)
  | Some c =>
      (Ok tt, mkWorld (mkEvaluator (graph e) (embedding_model e) (Some (clf_fit x y c))
                                   (embedding_operator e) (_samples e))
                      (EvClfFit x y :: trace w))
  end.

(** [self.classifier.predict_proba(x)] *)
Definition classifier_predict_proba (x : list vec) : Py ndarray := fun w =>
  match classifier (self w) with
  | None => (Raise (AttributeError "predict_proba"), w)
  | Some c => (Ok (predict_proba c x), mkWorld (self w) (EvPredictProba x :: trace w))
  end.

(** def get_samples(self) *)
Definition get_samples : Py DotDict := fun w =>
  (Ok (get_train_test_samples (graph (self w)) (n_splits w)),
   mkWorld (self w) (EvSplit (graph (self w)) :: trace w)).

(** @property def samples(self) *)
Definition samples : Py DotDict :=
  cached <- gets _samples ;;
  (if not_samples cached
   then (d <- get_samples ;; set_samples d)
   else ret tt) ;;;
  now <- gets _samples ;;
  match now with
  | Some d => ret d
  | None => raise TypeError
  end.

(** def get_node_embeddings(self, sample_type=None) *)
Definition get_node_embeddings (sample_type : option SampleType) : Py ndarray :=
  match sample_type with
  | Some TRAIN =>
      s <- samples ;; g <- lift (attr_graph s "G_train") ;; model_fit g
  | Some TEST =>
      s <- samples ;; g <- lift (attr_graph s "G_test") ;; model_fit g
  | None =>
      g <- gets graph ;; model_fit g
  end ;;;
  model_get_embedding.

Definition train_node_embeddings : Py ndarray := get_node_embeddings (Some TRAIN).

Definition test_node_embeddings : Py ndarray := get_node_embeddings (Some TEST).

(** One element of the list comprehensions of [get_edge_embeddings]. *)
Definition edge_embedding (op : EdgeOperator) (node_embeddings : ndarray)
           (edge : Z * Z) : result vec :=
  match getitem node_embeddings (fst edge) with
  | Raise e => Raise e
  | Ok eu =>
      match getitem node_embeddings (snd edge) with
      | Raise e => Raise e
      | Ok ev => Ok (edge_vector op eu ev)
      end
  end.

(** def get_edge_embeddings(self, sample_type) *)
Definition get_edge_embeddings (sample_type : SampleType) : Py (list vec) :=
  node_embeddings <-
    (if SampleType_eqb sample_type TRAIN
     then train_node_embeddings else test_node_embeddings) ;;
  s <- samples ;;
  ids <- lift (attr_edge_ids s (if SampleType_eqb sample_type TRAIN
                                then "edge_ids_train" else "edge_ids_test")) ;;
  op <- gets embedding_operator ;;
  if EdgeOperator_eqb op CONCAT then
    lift (mapR (edge_embedding CONCAT node_embeddings) ids)
  else if EdgeOperator_eqb op HADAMARD then
    lift (mapR (edge_embedding HADAMARD node_embeddings) ids)
  else if EdgeOperator_eqb op AVERAGE then
    lift (mapR (edge_embedding AVERAGE node_embeddings) ids)
  else raise (ValueError (unknown_operator_msg op)).

(** def get_roc_auc_score(self) *)
Definition get_roc_auc_score : Py Q :=
  clf <- gets classifier ;;
  no_classifier <- lift (not_classifier clf) ;;
  op <- gets embedding_operator ;;
  if no_classifier || not_obj op then raise (ValueError config_error_msg)
  else
    train_edge_embeddings <- get_edge_embeddings TRAIN ;;
    s <- samples ;;
    y_train <- lift (attr_labels s "edge_labels_train") ;;
    classifier_fit train_edge_embeddings y_train ;;;
    test_edge_embeddings <- get_edge_embeddings TEST ;;
    proba <- classifier_predict_proba test_edge_embeddings ;;
    predictions <- lift (mapR (fun row => getitem row 1%Z) proba) ;;
    s <- samples ;;
    y_test <- lift (attr_labels s "edge_labels_test") ;;
    ret (roc_auc_score y_test predictions).

(** Lines 145-155: the similarity matrix of the chosen measure. *)
Definition similarity (similarity_measure : option SimilarityMeasure)
           (node_embeddings : ndarray) : result ndarray :=
  if SimilarityMeasure_eqb similarity_measure COSINE then
    Ok (cosine_similarity node_embeddings)
  else if SimilarityMeasure_eqb similarity_measure HAMMING then
    Ok (hamming node_embeddings)
  else if SimilarityMeasure_eqb similarity_measure DOT_PRODUCT then
    Ok (dot_transpose node_embeddings)
  else Raise (ValueError (unknown_measure_msg similarity_measure)).

(** Lines 145-158: the masked similarity matrix. *)
Definition masked_similarities (similarity_measure : option SimilarityMeasure)
           (node_embeddings : ndarray) : result ndarray :=
  match similarity similarity_measure node_embeddings with
  | Raise e => Raise e
  | Ok similarities => Ok (np_tril similarities (-1))
  end.

(** def get_precision_at_100(self, similarity_measure=HAMMING); the
    diagnostic prints and the timing wrapper are left out. *)
Definition get_precision_at_100 (similarity_measure : option SimilarityMeasure) : Py Q :=
  node_embeddings <- get_node_embeddings None ;;
  similarities <- lift (masked_similarities similarity_measure node_embeddings) ;;
  top100_indices <- lift (top100 np similarities) ;;
  g <- gets graph ;;
  let tp := count_tp g top100_indices in
  ret (inject_Z (Z.of_nat tp) / 100)%Q.

(** ** Worlds and judgements used to state properties *)

(** The world after the get_train_test_samples was called and its answer cached. *)
Definition refreshed (w : World) : World :=
  mkWorld (mkEvaluator (graph (self w)) (embedding_model (self w))
                       (classifier (self w)) (embedding_operator (self w))
                       (Some (get_train_test_samples (graph (self w)) (n_splits w))))
          (EvSplit (graph (self w)) :: trace w).

(** The world after the embedding model was fitted on [g]. *)
Definition fitted (g : Graph) (w : World) : World :=
  mkWorld (mkEvaluator (graph (self w)) (fit g (embedding_model (self w)))
                       (classifier (self w)) (embedding_operator (self w))
                       (_samples (self w)))
          (EvFit g :: trace w).

(** [triple P c Q]: started in a world satisfying [P], the computation
    either returns a value and a world related by [Q], or raises something
    that is not a ValueError. *)
Definition triple {A} (P : World -> Prop) (c : Py A) (Q : A -> World -> Prop) : Prop :=
  forall w, P w ->
    match c w with
    | (Ok a, w') => Q a w'
    | (Raise e, _) => forall msg, e <> ValueError msg
    end.

(** The invariant carried through: the operator stays the configured one. *)
Definition has_operator (op : EdgeOperator) (w : World) : Prop :=
  embedding_operator (self w) = Some op.

End Evaluator.

(* ===================================================================== *)
(** * Reference collaborators                                             *)
(* ===================================================================== *)

(** A stable insertion sort of the indices by value: one implementation
    that meets the contract of [Numpy]. *)
Fixpoint insert_by (a : list Q) (i : nat) (l : list nat) : list nat :=
  match l with
  | [] => [i]
  | j :: l' =>
      if Qle_bool (val a i) (val a j) then i :: l else j :: insert_by a i l'
  end.

Definition argsort_ref (a : list Q) : list nat :=
  fold_right (insert_by a) [] (seq 0 (length a)).

Definition argpartition_ref (a : list Q) (kth : Z) : result (list nat) :=
  match a with
  | [] => Ok []
  | _ :: _ =>
      if kth_in_bounds kth (length a)
      then Ok (argsort_ref a)
      else Raise (ValueError "kth out of bounds")
  end.

Definition numpy_ref : Numpy := mkNumpy argpartition_ref argsort_ref.

(** Exact rational arithmetic, one dtype among others. *)
Lemma Qmult_comm_eq (x y : Q) : (x * y)%Q = (y * x)%Q.
Proof.
  destruct x as [a b], y as [c d]; unfold Qmult; simpl.
  now rewrite Z.mul_comm, Pos.mul_comm.
Qed.

Lemma Qplus_comm_eq (x y : Q) : (x + y)%Q = (y + x)%Q.
Proof.
  destruct x as [a b], y as [c d]; unfold Qplus; simpl.
  now rewrite Z.add_comm, Pos.mul_comm.
Qed.

#[export] Instance exact_dtype : Dtype := {
  dt_mul := Qmult;
  dt_add := Qplus;
  dt_half x := (x / 2)%Q;
  dt_eqb := Qeq_bool;
  dt_mul_comm := Qmult_comm_eq;
  dt_add_comm := Qplus_comm_eq;
  dt_eqb_sym := Qeq_bool_comm
}.

(** An embedding model that returns a fixed matrix and remembers the graph
    it was last fitted on. *)
Record StubModel : Type := mkStubModel {
  fitted_on : option Graph;
  table : ndarray
}.

#[export] Instance StubModel_EmbeddingModel : EmbeddingModel StubModel := {
  fit g m := mkStubModel (Some g) (table m);
  get_embedding m := table m
}.

(** A classifier that predicts probability 1/2 for both classes and counts
    how often it was fitted; a plain object, always truthy. *)
#[export] Instance StubClassifier : ClassifierEstimator nat := {
  clf_bool _ := Ok true;
  clf_fit _ _ c := S c;
  predict _ x := map (fun _ => 0%Z) x;
  predict_proba _ x := map (fun _ => [1#2; 1#2]) x
}.

(** The 10-node scenario: a fixed 10 x 4 embedding matrix, a graph with
    three edges, and a splitter that always returns the same six-field
    bundle. *)
Definition scenario_embedding : ndarray :=
  [[1;0;1;0]; [1;0;1;1]; [0;0;1;0]; [1;1;1;0]; [0;1;0;1];
   [1;0;0;0]; [0;0;0;0]; [1;1;1;1]; [0;1;1;0]; [1;1;0;0]]%Q.

Definition scenario_graph : Graph :=
  mkGraph (map Z.of_nat (seq 0 10)) [(0, 1); (2, 3); (4, 9)]%Z.

Definition scenario_bundle (g : Graph) : DotDict :=
  mkDotDict (mkGraph (nodes g) [(0, 1)]%Z) (mkGraph (nodes g) [(2, 3)]%Z)
            [(0, 1); (2, -1)]%Z [(2, 3); (4, 5)]%Z
            [1; 0]%Z [1; 0]%Z.

Definition scenario_splitter (g : Graph) (n : nat) : DotDict := scenario_bundle g.

(** A splitter whose bundles differ from one call to the next. *)
Definition varying_splitter (g : Graph) (n : nat) : DotDict :=
  mkDotDict g g [(Z.of_nat n, 1)]%Z [(2, 3)]%Z [1]%Z [0]%Z.

(** A classifier modelled on sklearn's ensembles, whose [__len__] is the
    number of fitted estimators: before [fit] the attribute is missing and
    the truth test raises, with no estimators the object is falsy. *)
Record Ensemble : Type := mkEnsemble {
  n_estimators : nat;
  estimators_ : option nat
}.

#[export] Instance Ensemble_ClassifierEstimator : ClassifierEstimator Ensemble := {
  clf_bool c :=
    match estimators_ c with
    | None => Raise (AttributeError "estimators_")
    | Some n => Ok (negb (n =? 0)%nat)
    end;
  clf_fit _ _ c := mkEnsemble (n_estimators c) (Some (n_estimators c));
  predict _ x := map (fun _ => 0%Z) x;
  predict_proba _ x := map (fun _ => [1#2; 1#2]) x
}.

Definition ensemble_world (c : Ensemble) (op : option EdgeOperator)
  : @World StubModel Ensemble :=
  mkWorld (mkEvaluator scenario_graph (mkStubModel None scenario_embedding)
                       (Some c) op None) [].

Definition scenario_world (clf : option nat) (op : option EdgeOperator)
  : @World StubModel nat :=
  mkWorld (mkEvaluator scenario_graph (mkStubModel None scenario_embedding) clf op None) [].

(** An 11-node variant of the scenario, with its masked HAMMING matrix and
    the ranking the reference sort gives, and a 3-node one. *)
Definition scenario_embedding_11 : ndarray :=
  scenario_embedding ++ [[0; 0; 1; 1]]%Q.

Definition scenario_masked_11 : ndarray :=
  np_tril (hamming scenario_embedding_11) (-1).

Definition scenario_ranking_11 : list (nat * nat) :=
  Eval vm_compute in
    match top100 numpy_ref scenario_masked_11 with
    | Ok pairs => pairs
    | Raise _ => []
    end.

Definition small_world : @World StubModel nat :=
  mkWorld (mkEvaluator (mkGraph [0; 1; 2]%Z [(0, 1)]%Z)
                       (mkStubModel None [[1; 0]; [0; 1]; [1; 1]]%Q)
                       None None None) [].

(** A splitter whose train edge ids reach past the 10 rows of the
    embedding matrix. *)
Definition out_of_range_splitter (g : Graph) (n : nat) : DotDict :=
  mkDotDict g g [(0, 1); (3, 10)]%Z [(2, 3)]%Z [1; 0]%Z [1]%Z.

(** A classifier whose probability matrix has a single column. *)
#[export] Instance OneColumnClassifier : ClassifierEstimator unit := {
  clf_bool _ := Ok true;
  clf_fit _ _ c := c;
  predict _ x := map (fun _ => 0%Z) x;
  predict_proba _ x := map (fun _ => [1%Q]) x
}.

Definition one_column_world : @World StubModel unit :=
  mkWorld (mkEvaluator scenario_graph (mkStubModel None scenario_embedding)
                       (Some tt) (Some HADAMARD) None) [].

(** The edge vectors of the scenario's train and test edge ids. *)
Definition scenario_x_train (op : EdgeOperator) : list (list Q) :=
  match mapR (edge_embedding op scenario_embedding) [(0, 1); (2, -1)]%Z with
  | Ok x => x
  | Raise _ => []
  end.

Definition scenario_x_test (op : EdgeOperator) : list (list Q) :=
  match mapR (edge_embedding op scenario_embedding) [(2, 3); (4, 5)]%Z with
  | Ok x => x
  | Raise _ => []
  end.

(** The area under the ROC curve in its rank form: the share of (positive,
    negative) pairs the scores order correctly, ties counting one half.
    (sklearn raises when one class is missing; this stand-in returns 0.) *)
Definition roc_auc_score_ref (y_true : list Z) (y_score : list Q) : Q :=
  let scored := combine y_true y_score in
  let pos := map snd (filter (fun p => (fst p =? 1)%Z) scored) in
  let neg := map snd (filter (fun p => (fst p =? 0)%Z) scored) in
  let credit (p n : Q) : Q :=
    if Qeq_bool p n then 1 # 2 else if Qle_bool n p then 1 else 0 in
  (fold_right Qplus 0
     (map (fun p => fold_right Qplus 0 (map (credit p) neg)) pos)
   / inject_Z (Z.of_nat (length pos * length neg)))%Q.

(** Stand-in for sklearn's [cosine_similarity] in runs that use another
    measure: the rationals have no square roots to normalise with. *)
Definition cosine_similarity_unused (E : ndarray) : ndarray := [].

(** Names of the bundle fields read for a sample type. *)
Definition graph_key (sample_type : SampleType) : string :=
  if SampleType_eqb sample_type TRAIN then "G_train" else "G_test".

Definition ids_key (sample_type : SampleType) : string :=
  if SampleType_eqb sample_type TRAIN then "edge_ids_train" else "edge_ids_test".

(** [i] is an index [a[i]] accepts. *)
Definition valid_index {A} (a : list A) (i : Z) : Prop :=
  (- Z.of_nat (length a) <= i < Z.of_nat (length a))%Z.

(** What the three operators are said to compute on two vectors of
    dimension [d], product and mean being those of the dtype. *)
Definition elementwise (f : Q -> Q -> Q) (d : nat) (eu ev out : vec) : Prop :=
  length out = d /\
  forall c, (c < d)%nat -> nth c out 0%Q = f (nth c eu 0%Q) (nth c ev 0%Q).

Definition edge_vector_spec {dt : Dtype} (op : EdgeOperator) (d : nat)
           (eu ev out : vec) : Prop :=
  match op with
  | CONCAT => out = eu ++ ev /\ length out = (2 * d)%nat
  | HADAMARD => elementwise dt_mul d eu ev out
  | AVERAGE => elementwise (fun x y => dt_half (dt_add x y)) d eu ev out
  end.

(** The order of two indices by the values they point at. *)
Definition le_at (a : list Q) (i j : nat) : Prop := (val a i <= val a j)%Q.

(** Shape of a 2-D array held as a list of rows. *)
Definition rectangular (r c : nat) (m : ndarray) : Prop :=
  length m = r /\ Forall (fun row => length row = c) m.

(** All positions of an r x c array in row-major order, and the test "is
    kept by the mask of [np.tril(_, k=-1)]". *)
Definition positions (r c : nat) : list (nat * nat) :=
  list_prod (seq 0 r) (seq 0 c).

Definition below_diagonal (p : nat * nat) : bool := tril_keep (-1) (fst p) (snd p).

Definition unravel (c : nat) (i : nat) : nat * nat := ((i / c)%nat, (i mod c)%nat).

(** Line 161 of evaluator.py on flat indices: reorder the selected
    indices by ascending value, then reverse. *)
Definition reorder (np : Numpy) (flat : list Q) (indices : list nat) : list nat :=
  rev (map (fun k => nth k indices 0%nat) (argsort np (map (val flat) indices))).

(* ===================================================================== *)
(** * Algebra of the edge operators                                      *)
(* ===================================================================== *)

Lemma zip_with_comm {A C} (f : A -> A -> C) :
  (forall x y, f x y = f y x) ->
  forall u v, zip_with f u v = zip_with f v u.
Proof.
  intros Hf u; induction u as [|x u IH]; intros [|y v]; simpl; auto.
  now rewrite Hf, IH.
Qed.

Lemma zip_with_length {A B C} (f : A -> B -> C) (u : list A) (v : list B) :
  length u = length v -> length (zip_with f u v) = length u.
Proof.
  revert v; induction u as [|x u IH]; intros [|y v] H; simpl in *;
    try discriminate; auto.
Qed.

Lemma app_swap_eq {A} (u v : list A) :
  length u = length v -> u ++ v = v ++ u -> u = v.
Proof.
  intros Hl He.
  apply (f_equal (firstn (length u))) in He.
  rewrite firstn_app, firstn_all, Nat.sub_diag, firstn_O, app_nil_r in He.
  rewrite Hl, firstn_app, firstn_all, Nat.sub_diag, firstn_O, app_nil_r in He.
  exact He.
Qed.

Section EdgeOperatorAlgebra.

Context {dt : Dtype}.

(** C9. HADAMARD and AVERAGE do not depend on the order of the two node
    vectors; CONCAT does depend on it for some pair of vectors of one
    dimension, and for vectors of one dimension the two concatenations
    coincide exactly when the two vectors are equal. *)
Theorem edge_operator_commutativity :
  (forall eu ev, edge_vector HADAMARD eu ev = edge_vector HADAMARD ev eu) /\
  (forall eu ev, edge_vector AVERAGE eu ev = edge_vector AVERAGE ev eu) /\
  (exists eu ev, length eu = length ev /\
                 edge_vector CONCAT eu ev <> edge_vector CONCAT ev eu) /\
  (forall eu ev, length eu = length ev ->
     (edge_vector CONCAT eu ev = edge_vector CONCAT ev eu <-> eu = ev)).
Proof.
  repeat split.
  - intros; simpl; unfold np_multiply. apply zip_with_comm, dt_mul_comm.
  - intros; simpl; unfold np_average. f_equal. apply zip_with_comm, dt_add_comm.
  - exists [0%Q], [1%Q]; split; [reflexivity | simpl; discriminate].
  - simpl; unfold np_concatenate. now apply app_swap_eq.
  - intros ->; reflexivity.
Qed.

End EdgeOperatorAlgebra.

Lemma edge_operator_commutativity_witness :
  edge_vector CONCAT [1#2; 3] [1#2; 3] = edge_vector CONCAT [1#2; 3] [1#2; 3]
  <-> [1#2; 3] = [1#2; 3] :> vec.
Proof.
  apply (proj2 (proj2 (proj2 (@edge_operator_commutativity exact_dtype)))). reflexivity.
Defined.

(* ===================================================================== *)
(** * Lists, permutations and the reference sort                          *)
(* ===================================================================== *)

Lemma insert_by_perm a i l : Permutation (insert_by a i l) (i :: l).
Proof.
  induction l as [|j l IH]; simpl; auto.
  destruct (Qle_bool (val a i) (val a j)); auto.
  rewrite IH. apply perm_swap.
Qed.

Lemma argsort_ref_perm a : Permutation (argsort_ref a) (seq 0 (length a)).
Proof.
  unfold argsort_ref. induction (seq 0 (length a)) as [|i l IH]; simpl; auto.
  rewrite insert_by_perm. now constructor.
Qed.

Lemma insert_by_sorted a i l :
  StronglySorted (le_at a) l -> StronglySorted (le_at a) (insert_by a i l).
Proof.
  induction 1 as [|j l Hs IH Hj]; simpl.
  - constructor; constructor.
  - destruct (Qle_bool (val a i) (val a j)) eqn:E.
    + apply Qle_bool_iff in E. constructor.
      * now constructor.
      * constructor; auto.
        eapply Forall_impl; [|exact Hj]. intros y Hy. unfold le_at in *.
        eapply Qle_trans; eauto.
    + constructor; auto.
      assert (Hji : le_at a j i).
      { unfold le_at. apply Qlt_le_weak, Qnot_le_lt. intro Hc.
        apply Qle_bool_iff in Hc. congruence. }
      rewrite Forall_forall in *. intros y Hy.
      apply (Permutation_in _ (insert_by_perm a i l)) in Hy.
      destruct Hy as [<-|Hy]; auto.
Qed.

Lemma argsort_ref_sorted a : StronglySorted (le_at a) (argsort_ref a).
Proof.
  unfold argsort_ref. induction (seq 0 (length a)) as [|i l IH]; simpl.
  - constructor.
  - now apply insert_by_sorted.
Qed.

Lemma StronglySorted_nth {A} (R : A -> A -> Prop) (l : list A) (d : A) :
  StronglySorted R l ->
  forall i j, (i < j < length l)%nat -> R (nth i l d) (nth j l d).
Proof.
  induction 1 as [|x l Hs IH Hx]; intros i j Hij; simpl in *; [lia|].
  destruct j as [|j]; [lia|]. destruct i as [|i].
  - rewrite Forall_forall in Hx. apply Hx, nth_In. lia.
  - apply IH. lia.
Qed.

Lemma argsort_ref_nth a i j :
  (i <= j < length a)%nat ->
  (val a (nth i (argsort_ref a) 0%nat) <= val a (nth j (argsort_ref a) 0%nat))%Q.
Proof.
  intros Hij.
  destruct (Nat.eq_dec i j) as [->|Hne]; [apply Qle_refl|].
  apply (StronglySorted_nth 0%nat (argsort_ref_sorted a)).
  rewrite (Permutation_length (argsort_ref_perm a)), length_seq. lia.
Qed.

Lemma kth_in_bounds_spec kth n :
  kth_in_bounds kth n = true -> (Z.to_nat (norm_kth kth n) < n)%nat.
Proof.
  unfold kth_in_bounds. intros Hb.
  apply andb_true_iff in Hb. destruct Hb as [H0 H1].
  apply Z.leb_le in H0. apply Z.ltb_lt in H1. lia.
Qed.

Lemma numpy_ref_contract : NumpyContract numpy_ref.
Proof.
  refine (@mkNumpyContract numpy_ref _ _ _ _ argsort_ref_perm argsort_ref_nth); simpl.
  - intros [|x a] kth Hne Hb; [congruence|].
    unfold argpartition_ref. rewrite Hb. eauto.
  - intros [|x a] kth Hb; [apply kth_in_bounds_spec in Hb; simpl in Hb; lia|].
    unfold argpartition_ref. now rewrite Hb.
  - intros [|x a] kth p; unfold argpartition_ref.
    + intros [= <-]. constructor.
    + destruct (kth_in_bounds kth (length (x :: a))); [|discriminate].
      intros [= <-]. apply argsort_ref_perm.
  - intros [|x a] kth p; unfold argpartition_ref.
    + intros _ Hb. apply kth_in_bounds_spec in Hb; simpl in Hb; lia.
    + intros Hp Hb. rewrite Hb in Hp. injection Hp as <-.
      intros i Hi. pose proof (kth_in_bounds_spec _ _ Hb) as Hk.
      split; intros Hik; apply argsort_ref_nth; lia.
Qed.

Lemma mapR_length {A B} (f : A -> result B) (l : list A) (out : list B) :
  mapR f l = Ok out -> length out = length l.
Proof.
  revert out; induction l as [|x l IH]; simpl; intros out Ho.
  - now injection Ho as <-.
  - destruct (f x) as [y|e]; [|discriminate].
    destruct (mapR f l) as [ys|e]; [|discriminate].
    injection Ho as <-. simpl. f_equal. now apply IH.
Qed.

Lemma mapR_ok_map {A B} (f : A -> result B) (g : A -> B) (l : list A) :
  (forall x, In x l -> f x = Ok (g x)) -> mapR f l = Ok (map g l).
Proof.
  induction l as [|x l IH]; simpl; intros Hf; [reflexivity|].
  rewrite (Hf x (or_introl eq_refl)), IH; auto.
Qed.

Lemma mapR_nth_error {A B} (f : A -> result B) (l : list A) (out : list B) :
  mapR f l = Ok out ->
  forall k x, nth_error l k = Some x ->
    exists y, f x = Ok y /\ nth_error out k = Some y.
Proof.
  revert out; induction l as [|a l IH]; simpl; intros out Ho k x Hk.
  - destruct k; discriminate.
  - destruct (f a) as [y|e] eqn:Ea; [|discriminate].
    destruct (mapR f l) as [ys|e]; [|discriminate].
    injection Ho as <-. destruct k as [|k]; simpl in *.
    + injection Hk as <-. eauto.
    + eapply IH; eauto.
Qed.

Lemma getitem_nat {A} (a : list A) (i : nat) (d : A) :
  (i < length a)%nat -> getitem a (Z.of_nat i) = Ok (nth i a d).
Proof.
  intros Hi. unfold getitem.
  destruct (Z.ltb_spec (Z.of_nat i) 0); [lia|].
  destruct (Z.leb_spec 0 (Z.of_nat i)); [|lia].
  destruct (Z.ltb_spec (Z.of_nat i) (Z.of_nat (length a))); [|lia].
  simpl. rewrite Nat2Z.id.
  destruct (nth_error a i) as [x|] eqn:E.
  - now rewrite (nth_error_nth _ _ d E).
  - apply nth_error_None in E. lia.
Qed.

Lemma take_ok {A} (a : list A) (indices : list nat) (d : A) :
  Forall (fun i => (i < length a)%nat) indices ->
  take a indices = Ok (map (fun i => nth i a d) indices).
Proof.
  intros Hall. unfold take. apply mapR_ok_map.
  rewrite Forall_forall in Hall. intros i Hi. now apply getitem_nat, Hall.
Qed.

Lemma map_nth_seq {A} (l : list A) (d : A) :
  map (fun k => nth k l d) (seq 0 (length l)) = l.
Proof.
  induction l as [|x l IH]; simpl; [reflexivity|].
  f_equal. rewrite <- seq_shift, map_map. exact IH.
Qed.

Lemma perm_seq_bound (p : list nat) (n : nat) :
  Permutation p (seq 0 n) -> Forall (fun i => (i < n)%nat) p.
Proof.
  intros Hp. rewrite Forall_forall. intros i Hi.
  apply (Permutation_in _ Hp), in_seq in Hi. lia.
Qed.

Lemma lastn_length {A} (k : nat) (a : list A) : (length (lastn k a) <= k)%nat.
Proof. unfold lastn. rewrite length_skipn. lia. Qed.

Lemma lastn_all {A} (k : nat) (a : list A) : (length a <= k)%nat -> lastn k a = a.
Proof.
  intros Hk. unfold lastn. replace (length a - k)%nat with 0%nat by lia. reflexivity.
Qed.

Lemma combine_div_mod (c : nat) (l : list nat) :
  combine (map (fun i => i / c)%nat l) (map (fun i => i mod c)%nat l)
  = map (fun i => (i / c, i mod c))%nat l.
Proof. induction l as [|i l IH]; simpl; [reflexivity|now rewrite IH]. Qed.

Lemma count_tp_filter (g : Graph) (pairs : list (nat * nat)) :
  count_tp g pairs
  = length (filter (fun idx => has_edge g (Z.of_nat (fst idx)) (Z.of_nat (snd idx))) pairs).
Proof.
  unfold count_tp.
  set (t := fun idx : nat * nat => has_edge g (Z.of_nat (fst idx)) (Z.of_nat (snd idx))).
  assert (Hgen : forall acc,
             fold_left (fun tp idx => if t idx then S tp else tp) pairs acc
             = (acc + length (filter t pairs))%nat).
  { induction pairs as [|p l IH]; intros acc; simpl; [lia|].
    rewrite IH. destruct (t p); simpl; lia. }
  now rewrite Hgen.
Qed.

Lemma mapi_from_length {A B} (f : nat -> A -> B) (l : list A) (s : nat) :
  length (mapi_from s f l) = length l.
Proof. revert s; induction l as [|x l IH]; simpl; intros s; auto. Qed.

Lemma mapi_from_nth {A B} (f : nat -> A -> B) (l : list A) (s j : nat) (d : A) (d' : B) :
  (j < length l)%nat -> nth j (mapi_from s f l) d' = f (s + j)%nat (nth j l d).
Proof.
  revert s j; induction l as [|x l IH]; simpl; intros s j Hj; [lia|].
  destruct j as [|j].
  - now rewrite Nat.add_0_r.
  - rewrite (IH (S s) j) by lia. f_equal. lia.
Qed.

Lemma mapi_from_Forall {A B} (P : B -> Prop) (Q : A -> Prop)
      (f : nat -> A -> B) (l : list A) (s : nat) :
  (forall i x, Q x -> P (f i x)) -> Forall Q l -> Forall P (mapi_from s f l).
Proof.
  intros Hf Hl; revert s; induction Hl as [|x l Hx Hl IH]; simpl; intros s;
    constructor; auto.
Qed.

Lemma np_tril_rectangular r c m k :
  rectangular r c m -> rectangular r c (np_tril m k).
Proof.
  intros [Hr Hc]. split.
  - unfold np_tril, mapi. now rewrite mapi_from_length.
  - unfold np_tril, mapi.
    apply mapi_from_Forall with (Q := fun row : vec => length row = c); auto.
    intros i row Hrow. now rewrite mapi_from_length.
Qed.

Lemma np_tril_entry (m : ndarray) (k : Z) (i j : nat) :
  entry (np_tril m k) i j = if tril_keep k i j then entry m i j else 0%Q.
Proof.
  unfold entry, np_tril, mapi.
  set (frow := fun (i0 : nat) (row : vec) =>
                 mapi_from 0 (fun j0 x => if tril_keep k i0 j0 then x else 0%Q) row).
  destruct (Nat.lt_ge_cases i (length m)) as [Hi|Hi].
  - pose proof (@mapi_from_nth vec vec frow m 0 i [] [] Hi) as E.
    simpl in E. rewrite E. unfold frow.
    destruct (Nat.lt_ge_cases j (length (nth i m []))) as [Hj|Hj].
    + pose proof (@mapi_from_nth Q Q (fun j0 x => if tril_keep k i j0 then x else 0%Q)
                                 (nth i m []) 0 j 0%Q 0%Q Hj) as E'.
      simpl in E'. exact E'.
    + rewrite !nth_overflow; [now destruct tril_keep| exact Hj |].
      now rewrite mapi_from_length.
  - rewrite (nth_overflow (mapi_from 0 frow m)) by now rewrite mapi_from_length.
    rewrite (nth_overflow m) by exact Hi. simpl.
    destruct j; now destruct tril_keep.
Qed.

Lemma ravel_length r c m : rectangular r c m -> length (ravel m) = (r * c)%nat.
Proof.
  intros [Hr Hc]. subst r. unfold ravel.
  induction Hc as [|row m Hrow Hc IH]; simpl; [reflexivity|].
  now rewrite length_app, IH, Hrow.
Qed.

Lemma ravel_nth r c m i :
  rectangular r c m -> (i < r * c)%nat ->
  val (ravel m) i = entry m (i / c) (i mod c).
Proof.
  intros [Hr Hc]. subst r. revert i.
  induction Hc as [|row m Hrow Hc IH]; intros i Hi; simpl in Hi; [lia|].
  assert (Hcpos : (0 < c)%nat) by (destruct c; [lia | lia]).
  unfold val, ravel, entry in *. simpl.
  destruct (Nat.lt_ge_cases i c) as [Hlt|Hge].
  - rewrite Nat.div_small, Nat.mod_small by exact Hlt.
    now rewrite app_nth1 by lia.
  - rewrite app_nth2 by lia. rewrite Hrow.
    replace i with ((i - c) + 1 * c)%nat at 2 3 by lia.
    rewrite Nat.div_add, Nat.Div0.mod_add by lia.
    rewrite Nat.add_1_r. simpl. apply IH. lia.
Qed.

Lemma shape_rectangular r c m : rectangular r c m -> (0 < r)%nat -> shape m = (r, c).
Proof.
  intros [Hr Hc] Hpos. unfold shape. destruct m as [|row m]; simpl in *; [lia|].
  inversion Hc; subst. reflexivity.
Qed.

(* ===================================================================== *)
(** * The ranking of get_precision_at_100                                 *)
(* ===================================================================== *)

Lemma below_diagonal_spec i j : below_diagonal (i, j) = true <-> (j < i)%nat.
Proof.
  unfold below_diagonal, tril_keep; simpl. rewrite Z.leb_le. lia.
Qed.

Lemma filter_length_perm {A} (f : A -> bool) (l l' : list A) :
  Permutation l l' -> length (filter f l) = length (filter f l').
Proof.
  induction 1 as [|x l l' Hp IH|x y l|l l' l'' H1 IH1 H2 IH2]; simpl; auto.
  - destruct (f x); simpl; auto.
  - destruct (f x), (f y); reflexivity.
  - congruence.
Qed.

Section Ranking.

Variable np : Numpy.
Hypothesis Hnp : NumpyContract np.

Lemma top100_length (m : ndarray) (pairs : list (nat * nat)) :
  top100 np m = Ok pairs -> (length pairs <= 100)%nat.
Proof.
  unfold top100.
  destruct (argpartition np (ravel m) (-100)) as [part|e]; [|discriminate].
  destruct (take (ravel m) (lastn 100 part)) as [vals|e] eqn:Ev; [|discriminate].
  destruct (take (lastn 100 part) (argsort np vals)) as [sorted|e] eqn:Es; [|discriminate].
  unfold unravel_index. destruct (shape m) as [r c].
  destruct (forallb _ _); [|discriminate].
  intros [= <-].
  rewrite combine_div_mod, length_map, length_rev.
  apply mapR_length in Es, Ev. rewrite Es.
  rewrite (Permutation_length (argsort_perm Hnp vals)), length_seq, Ev.
  apply lastn_length.
Qed.

Lemma reorder_perm (flat : list Q) (indices : list nat) :
  Permutation (reorder np flat indices) indices.
Proof.
  unfold reorder.
  apply Permutation_trans
    with (map (fun k => nth k indices 0%nat) (argsort np (map (val flat) indices)));
    [apply Permutation_sym, Permutation_rev|].
  apply Permutation_trans
    with (map (fun k => nth k indices 0%nat) (seq 0 (length indices))).
  - apply Permutation_map.
    pose proof (argsort_perm Hnp (map (val flat) indices)) as Hs.
    now rewrite length_map in Hs.
  - now rewrite map_nth_seq.
Qed.

(** The reordered indices come by descending value. *)
Lemma reorder_descending (flat : list Q) (indices : list nat) (a b : nat) :
  (a <= b < length indices)%nat ->
  (val flat (nth b (reorder np flat indices) 0%nat)
   <= val flat (nth a (reorder np flat indices) 0%nat))%Q.
Proof.
  intros Hab. unfold reorder.
  set (vals := map (val flat) indices).
  set (order := argsort np vals).
  assert (Hlo : length order = length indices).
  { unfold order. rewrite (Permutation_length (argsort_perm Hnp vals)), length_seq.
    unfold vals. apply length_map. }
  assert (Hval : forall k, (k < length indices)%nat ->
            val flat (nth k (map (fun k => nth k indices 0%nat) order) 0%nat)
            = val vals (nth k order 0%nat)).
  { intros k Hk.
    rewrite (nth_indep _ 0%nat (nth 0 indices 0%nat)) by (rewrite length_map; lia).
    rewrite (map_nth (fun k => nth k indices 0%nat) order 0%nat k).
    unfold val at 2, vals.
    assert (Hin : (nth k order 0 < length indices)%nat).
    { pose proof (argsort_perm Hnp vals) as Hp. apply perm_seq_bound in Hp.
      rewrite Forall_forall in Hp. unfold vals in Hp at 2. rewrite length_map in Hp.
      apply Hp, nth_In. fold order. lia. }
    rewrite (nth_indep _ 0%Q (val flat 0%nat)) by (rewrite length_map; exact Hin).
    now rewrite (map_nth (val flat) indices 0%nat). }
  rewrite !rev_nth by (rewrite length_map; lia).
  rewrite length_map, Hlo, !Hval by lia.
  apply (argsort_sorted Hnp vals). unfold vals. rewrite length_map. lia.
Qed.

(** On an array with at least 100 entries the selection returns: the
    ranked pairs are the last 100 indices of the partition, reordered and
    mapped back to positions. *)
Lemma top100_run (r c : nat) (m : ndarray) :
  rectangular r c m -> (100 <= r * c)%nat ->
  exists part,
    argpartition np (ravel m) (-100) = Ok part /\
    top100 np m = Ok (map (unravel c) (reorder np (ravel m) (lastn 100 part))).
Proof.
  intros Hrect Hsize.
  pose proof (ravel_length Hrect) as Hlen.
  assert (Hr : (0 < r)%nat) by (destruct r; [rewrite Nat.mul_0_l in Hsize|]; lia).
  assert (Hb : kth_in_bounds (-100) (length (ravel m)) = true).
  { unfold kth_in_bounds, norm_kth. rewrite Hlen.
    change (-100 <? 0)%Z with true. cbv iota.
    remember (r * c)%nat as n.
    apply andb_true_iff; split; [apply Z.leb_le | apply Z.ltb_lt]; lia. }
  pose proof (argpartition_returns Hnp _ _ Hb) as Hok.
  unfold top100.
  destruct (argpartition np (ravel m) (-100)) as [part|e] eqn:Ep; [|discriminate].
  pose proof (argpartition_perm Hnp _ _ Ep) as Hperm.
  assert (Hbound : Forall (fun i => (i < length (ravel m))%nat) (lastn 100 part)).
  { apply perm_seq_bound in Hperm. rewrite Forall_forall in *.
    intros i Hi. apply Hperm. unfold lastn in Hi.
    rewrite <- (firstn_skipn (length part - 100) part). apply in_or_app. now right. }
  rewrite (take_ok _ 0%Q Hbound).
  set (indices := lastn 100 part) in *.
  change (map (fun i => nth i (ravel m) 0%Q) indices) with (map (val (ravel m)) indices).
  set (vals := map (val (ravel m)) indices).
  assert (Hvals : length vals = length indices) by (unfold vals; apply length_map).
  assert (Hsb : Forall (fun k => (k < length indices)%nat) (argsort np vals)).
  { rewrite <- Hvals. apply perm_seq_bound, (argsort_perm Hnp). }
  rewrite (take_ok _ 0%nat Hsb). cbv zeta.
  change (rev (map (fun k => nth k indices 0%nat) (argsort np vals)))
    with (reorder np (ravel m) indices).
  rewrite (shape_rectangular Hrect Hr). unfold unravel_index.
  assert (Hchk : forallb (fun i => i <? r * c)%nat (reorder np (ravel m) indices) = true).
  { apply forallb_forall. intros i Hi. apply Nat.ltb_lt.
    apply (Permutation_in _ (reorder_perm (ravel m) indices)) in Hi.
    rewrite Forall_forall in Hbound. rewrite <- Hlen. now apply Hbound. }
  rewrite Hchk, combine_div_mod. exists part. split; reflexivity.
Qed.

Lemma top100_returns (r c : nat) (m : ndarray) :
  rectangular r c m -> (100 <= r * c)%nat ->
  exists part pairs,
    argpartition np (ravel m) (-100) = Ok part /\
    top100 np m = Ok pairs /\
    Permutation pairs (map (unravel c) (lastn 100 part)).
Proof.
  intros Hrect Hsize.
  destruct (top100_run Hrect Hsize) as (part & Ep & Ht).
  exists part. eexists. split; [exact Ep|]. split; [exact Ht|].
  apply Permutation_map, reorder_perm.
Qed.

(** X4. On an array of at least 100 entries the ranked pairs come by
    descending similarity: a pair ranked later never has a larger entry
    than a pair ranked earlier. *)
Lemma top100_descending (r c : nat) (m : ndarray) (pairs : list (nat * nat)) (a b : nat) :
  rectangular r c m -> (100 <= r * c)%nat ->
  top100 np m = Ok pairs ->
  (a <= b < length pairs)%nat ->
  let at_rank k := entry m (fst (nth k pairs (0, 0)%nat)) (snd (nth k pairs (0, 0)%nat)) in
  (at_rank b <= at_rank a)%Q.
Proof.
  intros Hrect Hsize Ht Hab.
  destruct (top100_run Hrect Hsize) as (part & Ep & Ht').
  rewrite Ht in Ht'. injection Ht' as ->.
  set (idx := reorder np (ravel m) (lastn 100 part)) in *.
  rewrite length_map in Hab.
  assert (Hlen : length idx = length (lastn 100 part))
    by apply (Permutation_length (reorder_perm _ _)).
  assert (Hin : forall k, (k < length idx)%nat -> (nth k idx 0 < r * c)%nat).
  { intros k Hk.
    pose proof (argpartition_perm Hnp _ _ Ep) as Hperm.
    rewrite (ravel_length Hrect) in Hperm. apply perm_seq_bound in Hperm.
    rewrite Forall_forall in Hperm. apply Hperm.
    assert (Hk' : In (nth k idx 0%nat) (lastn 100 part)).
    { apply (Permutation_in _ (reorder_perm (ravel m) (lastn 100 part))).
      apply nth_In. exact Hk. }
    unfold lastn in Hk'.
    rewrite <- (firstn_skipn (length part - 100) part). apply in_or_app. now right. }
  assert (Hrank : forall k, (k < length idx)%nat ->
            entry m (fst (nth k (map (unravel c) idx) (0, 0)%nat))
                    (snd (nth k (map (unravel c) idx) (0, 0)%nat))
            = val (ravel m) (nth k idx 0%nat)).
  { intros k Hk.
    rewrite (nth_indep _ (0, 0)%nat (unravel c 0%nat)) by (rewrite length_map; exact Hk).
    rewrite (map_nth (unravel c) idx 0%nat k). unfold unravel; simpl.
    symmetry. apply (ravel_nth Hrect). now apply Hin. }
  cbv beta zeta. rewrite !Hrank by lia.
  apply reorder_descending. lia.
Qed.

(** What the partition selects is at least as large as what it leaves. *)
Lemma selection_dominates (flat : list Q) (part : list nat) (x y : nat) :
  (100 <= length flat)%nat ->
  argpartition np flat (-100) = Ok part ->
  In x (lastn 100 part) ->
  In y (firstn (length part - 100) part) ->
  (val flat y <= val flat x)%Q.
Proof.
  intros Hsize Ep Hx Hy.
  assert (Hb : kth_in_bounds (-100) (length flat) = true).
  { unfold kth_in_bounds, norm_kth. change (-100 <? 0)%Z with true. cbv iota.
    apply andb_true_iff; split; [apply Z.leb_le | apply Z.ltb_lt]; lia. }
  pose proof (Permutation_length (argpartition_perm Hnp _ _ Ep)) as Hlen.
  rewrite length_seq in Hlen.
  pose proof (argpartition_pivot Hnp _ _ Ep Hb) as Hpiv. cbv zeta in Hpiv.
  assert (Hk : Z.to_nat (norm_kth (-100) (length flat)) = (length part - 100)%nat).
  { unfold norm_kth. change (-100 <? 0)%Z with true. cbv iota. lia. }
  rewrite Hk in Hpiv. set (k := (length part - 100)%nat) in *.
  unfold lastn in Hx. fold k in Hx.
  apply (In_nth _ _ 0%nat) in Hx. destruct Hx as (i & Hi & <-).
  apply (In_nth _ _ 0%nat) in Hy. destruct Hy as (j & Hj & <-).
  rewrite length_skipn in Hi. rewrite length_firstn in Hj.
  rewrite nth_skipn, nth_firstn.
  destruct (Nat.ltb_spec j k) as [Hjk|Hjk]; [|lia].
  eapply Qle_trans.
  - apply (proj1 (Hpiv j ltac:(lia))). lia.
  - apply (proj2 (Hpiv (k + i)%nat ltac:(lia))). lia.
Qed.

(** An array of exactly 100 entries: every position is ranked. *)
Lemma top100_ranks_everything (r c : nat) (m : ndarray) :
  rectangular r c m -> (r * c = 100)%nat ->
  exists pairs,
    top100 np m = Ok pairs /\
    Permutation pairs (map (unravel c) (seq 0 100)).
Proof.
  intros Hrect Hsize.
  destruct (@top100_returns r c m Hrect) as (part & pairs & Ep & Et & Hp); [lia|].
  exists pairs. split; [exact Et|].
  pose proof (argpartition_perm Hnp _ _ Ep) as Hperm.
  rewrite (ravel_length Hrect), Hsize in Hperm.
  rewrite lastn_all in Hp.
  - rewrite Hp. now apply Permutation_map.
  - rewrite (Permutation_length Hperm), length_seq. lia.
Qed.

(** The selection never returns fewer than 100 pairs. *)
Lemma top100_never_clamps (r c : nat) (m : ndarray) (pairs : list (nat * nat)) :
  rectangular r c m -> (100 <= r * c)%nat ->
  top100 np m = Ok pairs -> length pairs = 100%nat.
Proof.
  intros Hrect Hsize Ht.
  destruct (@top100_returns r c m Hrect Hsize) as (part & pairs' & Ep & Et & Hp).
  rewrite Ht in Et. injection Et as <-.
  rewrite (Permutation_length Hp), length_map.
  pose proof (argpartition_perm Hnp _ _ Ep) as Hperm.
  apply Permutation_length in Hperm.
  rewrite length_seq, (ravel_length Hrect) in Hperm.
  unfold lastn. rewrite length_skipn. lia.
Qed.

End Ranking.

Lemma hamming_rectangular {dt : Dtype} (E : ndarray) :
  rectangular (length E) (length E) (hamming E).
Proof.
  unfold hamming. split; [apply length_map|].
  apply Forall_forall. intros row Hrow. apply in_map_iff in Hrow.
  destruct Hrow as (u & <- & _). apply length_map.
Qed.

Lemma dot_transpose_rectangular (E : ndarray) :
  rectangular (length E) (length E) (dot_transpose E).
Proof.
  unfold dot_transpose. split; [apply length_map|].
  apply Forall_forall. intros row Hrow. apply in_map_iff in Hrow.
  destruct Hrow as (u & <- & _). apply length_map.
Qed.

(* ===================================================================== *)
(** * Properties of the Evaluator                                         *)
(* ===================================================================== *)

Lemma getitem_error {A} (a : list A) (i : Z) (e : exn) :
  getitem a i = Raise e -> e = IndexError.
Proof.
  unfold getitem.
  destruct (_ && _)%bool; [destruct (nth_error _ _)|]; congruence.
Qed.

Lemma getitem_valid {A} (a : list A) (i : Z) :
  valid_index a i -> exists x, getitem a i = Ok x /\ In x a.
Proof.
  unfold valid_index, getitem. intros Hi.
  set (n := Z.of_nat (length a)) in *.
  set (j := if (i <? 0)%Z then (i + n)%Z else i).
  assert (Hj : (0 <= j < n)%Z) by (unfold j; destruct (Z.ltb_spec i 0); lia).
  destruct (Z.leb_spec 0 j); [|lia]. destruct (Z.ltb_spec j n); [|lia]. simpl.
  destruct (nth_error a (Z.to_nat j)) as [x|] eqn:E.
  - exists x. split; [reflexivity|]. eapply nth_error_In; eauto.
  - apply nth_error_None in E. unfold n in *. lia.
Qed.

(** A valid index reads the row it names, a negative one from the end. *)
Lemma getitem_row {A} (a : list A) (i : Z) (x : A) :
  valid_index a i -> getitem a i = Ok x ->
  nth_error a (Z.to_nat (i mod Z.of_nat (length a))) = Some x.
Proof.
  unfold valid_index, getitem. intros Hi.
  set (n := Z.of_nat (length a)) in *.
  assert (Hm : (i mod n = if (i <? 0) then i + n else i)%Z).
  { destruct (Z.ltb_spec i 0).
    - symmetry. apply (Z.mod_unique i n (-1) (i + n)); lia.
    - apply Z.mod_small. lia. }
  rewrite Hm.
  destruct (_ && _)%bool; [|discriminate].
  destruct (nth_error a _) as [y|]; [|discriminate].
  now intros [= ->].
Qed.

Lemma mapR_error {A B} (f : A -> result B) (l : list A) (e : exn) :
  mapR f l = Raise e -> exists x, In x l /\ f x = Raise e.
Proof.
  induction l as [|x l IH]; simpl; [discriminate|].
  destruct (f x) as [y|e'] eqn:E.
  - destruct (mapR f l) as [ys|e'']; [discriminate|].
    intros [= <-]. destruct IH as (x' & Hin & Hx'); eauto.
  - intros [= <-]. eauto.
Qed.

Lemma mapR_total {A B} (f : A -> result B) (l : list A) :
  (forall x, In x l -> exists y, f x = Ok y) -> exists out, mapR f l = Ok out.
Proof.
  intros Hf. destruct (mapR f l) as [out|e] eqn:E; [eauto|].
  apply mapR_error in E. destruct E as (x & Hin & Hx).
  destruct (Hf x Hin) as (y & Hy). congruence.
Qed.

Lemma zip_with_nth {A B C} (f : A -> B -> C) (u : list A) (v : list B)
      (c : nat) (du : A) (dv : B) (d : C) :
  (c < length u)%nat -> (c < length v)%nat ->
  nth c (zip_with f u v) d = f (nth c u du) (nth c v dv).
Proof.
  revert v c; induction u as [|x u IH]; intros [|y v] c Hu Hv; simpl in *; try lia.
  destruct c as [|c]; [reflexivity|]. apply IH; lia.
Qed.

Lemma edge_vector_meets_spec {dt : Dtype} (op : EdgeOperator) (d : nat) (eu ev : vec) :
  length eu = d -> length ev = d ->
  edge_vector_spec op d eu ev (edge_vector op eu ev).
Proof.
  intros Hu Hv. destruct op; simpl.
  - unfold np_concatenate. split; [reflexivity|]. rewrite length_app. lia.
  - unfold np_multiply, elementwise. split.
    + rewrite zip_with_length; congruence.
    + intros c Hc. apply zip_with_nth; lia.
  - unfold np_average, elementwise. split.
    + rewrite length_map, zip_with_length; congruence.
    + intros c Hc.
      rewrite (nth_indep _ 0%Q (dt_half 0%Q))
        by (rewrite length_map, zip_with_length; lia).
      rewrite (map_nth dt_half).
      f_equal. apply zip_with_nth; lia.
Qed.

Lemma attr_graph_truthy (d : DotDict) (k : string) (g : Graph) :
  attr_graph d k = Ok g -> truthy d = true.
Proof. now destruct d. Qed.

Lemma attr_graph_error (d : DotDict) (k : string) (e : exn) :
  attr_graph d k = Raise e -> forall msg, e <> ValueError msg.
Proof.
  unfold attr_graph. destruct (dict_get d k) as [[]|]; intros [= <-]; discriminate.
Qed.

Lemma attr_edge_ids_error (d : DotDict) (k : string) (e : exn) :
  attr_edge_ids d k = Raise e -> forall msg, e <> ValueError msg.
Proof.
  unfold attr_edge_ids. destruct (dict_get d k) as [[]|]; intros [= <-]; discriminate.
Qed.


Section EvaluatorProperties.

Context {dt : Dtype} {M C : Type} {EM : EmbeddingModel M} {CE : ClassifierEstimator C}.

Variable splitter : Graph -> nat -> DotDict.

Local Abbreviation World := (@World M C).
Local Abbreviation Py := (@Py M C).
Local Abbreviation refreshed := (refreshed splitter).
Local Abbreviation has_operator := (@has_operator M C).

Lemma samples_run (w : World) :
  samples splitter w =
  match _samples (self w) with
  | Some d => if truthy d then (Ok d, w)
              else (Ok (splitter (graph (self w)) (n_splits w)), refreshed w)
  | None => (Ok (splitter (graph (self w)) (n_splits w)), refreshed w)
  end.
Proof.
  unfold samples, bind, gets, get_samples, set_samples, ret, refreshed.
  destruct (_samples (self w)) as [d|] eqn:E; simpl.
  - destruct (truthy d); simpl; [rewrite E|]; reflexivity.
  - reflexivity.
Qed.

Lemma samples_inv (w w1 : World) (b : DotDict) :
  samples splitter w = (Ok b, w1) ->
  _samples (self w1) = Some b /\
  graph (self w1) = graph (self w) /\
  embedding_model (self w1) = embedding_model (self w) /\
  classifier (self w1) = classifier (self w) /\
  embedding_operator (self w1) = embedding_operator (self w).
Proof.
  rewrite samples_run.
  destruct (_samples (self w)) as [d|] eqn:E; [destruct (truthy d)|];
    intros [= <- <-]; simpl; auto.
Qed.

Lemma samples_cached (w : World) (b : DotDict) :
  _samples (self w) = Some b -> truthy b = true -> samples splitter w = (Ok b, w).
Proof. intros Hc Ht. now rewrite samples_run, Hc, Ht. Qed.

(** C5. The first access, with nothing cached, calls the splitter once
    and caches its answer.  Every access with a bundle cached returns that
    very bundle and leaves the world as it is, whatever the bundle: the
    splitter is not called and nothing is recomputed.  So an access that
    follows another returns the bundle the first one returned. *)
Theorem samples_computed_once (w : World) :
  let fresh := splitter (graph (self w)) (n_splits w) in
  (_samples (self w) = None ->
     samples splitter w = (Ok fresh, refreshed w) /\
     trace (refreshed w) = EvSplit (graph (self w)) :: trace w /\
     n_splits (refreshed w) = S (n_splits w) /\
     _samples (self (refreshed w)) = Some fresh) /\
  (forall b, _samples (self w) = Some b -> samples splitter w = (Ok b, w)) /\
  (forall b w1, samples splitter w = (Ok b, w1) -> samples splitter w1 = (Ok b, w1)).
Proof.
  intros fresh. split; [|split].
  - intros Hc. rewrite samples_run, Hc. repeat split.
  - intros b Hc. apply samples_cached; [exact Hc | now destruct b].
  - intros b w1 Hs. apply samples_cached; [apply (@samples_inv w w1 b Hs) | now destruct b].
Qed.

(** ** Running get_edge_embeddings *)

Lemma bind_ok {A B} (c : Py A) (k : A -> Py B) (w w' : World) (a : A) :
  c w = (Ok a, w') -> bind c k w = k a w'.
Proof. intros Hc. unfold bind. now rewrite Hc. Qed.

Lemma bind_lift {A B} (r : result A) (k : A -> Py B) (w : World) (a : A) :
  r = Ok a -> bind (lift r) k w = k a w.
Proof. intros ->. reflexivity. Qed.

Lemma bind_gets {A B} (f : Evaluator -> A) (k : A -> Py B) (w : World) :
  bind (gets f) k w = k (f (self w)) w.
Proof. reflexivity. Qed.

Lemma get_node_embeddings_run (t : SampleType) (w w1 : World) (b : DotDict) (g : Graph) :
  samples splitter w = (Ok b, w1) ->
  attr_graph b (graph_key t) = Ok g ->
  get_node_embeddings splitter (Some t) w
  = (Ok (get_embedding (fit g (embedding_model (self w1)))), fitted g w1).
Proof.
  intros Hs Hg.
  unfold get_node_embeddings, bind, lift, model_fit, model_get_embedding, gets.
  destruct t; cbv beta iota delta [graph_key SampleType_eqb] in Hg;
    cbv beta iota; rewrite Hs; cbv beta iota; rewrite Hg; reflexivity.
Qed.

Lemma get_edge_embeddings_run (sample_type : SampleType) (w w1 : World)
      (b : DotDict) (g : Graph) (ids : list (Z * Z)) :
  samples splitter w = (Ok b, w1) ->
  attr_graph b (graph_key sample_type) = Ok g ->
  attr_edge_ids b (ids_key sample_type) = Ok ids ->
  get_edge_embeddings splitter sample_type w =
  (match embedding_operator (self w) with
   | Some op =>
       mapR (edge_embedding op (get_embedding (fit g (embedding_model (self w))))) ids
   | None => Raise (ValueError (unknown_operator_msg None))
   end,
   fitted g w1).
Proof.
  intros Hs Hg Hids.
  pose proof (attr_graph_truthy _ _ Hg) as Ht.
  destruct (@samples_inv _ _ _ Hs) as (Hc & Hgr & Hm & Hcl & Hop).
  assert (Hs2 : samples splitter (fitted g w1) = (Ok b, fitted g w1))
    by (apply samples_cached; [exact Hc | exact Ht]).
  pose proof (@get_node_embeddings_run sample_type w w1 b g Hs Hg) as Hn.
  unfold get_edge_embeddings, train_node_embeddings, test_node_embeddings.
  assert (Hn' : (if SampleType_eqb sample_type TRAIN
                 then get_node_embeddings splitter (Some TRAIN)
                 else get_node_embeddings splitter (Some TEST)) w
                = (Ok (get_embedding (fit g (embedding_model (self w1)))), fitted g w1))
    by (destruct sample_type; exact Hn).
  erewrite bind_ok by exact Hn'. erewrite bind_ok by exact Hs2.
  unfold ids_key in Hids. erewrite bind_lift by exact Hids. rewrite bind_gets.
  change (embedding_operator (self (fitted g w1))) with (embedding_operator (self w1)).
  rewrite Hop, Hm.
  destruct (embedding_operator (self w)) as [[]|]; reflexivity.
Qed.

(** C4. With an operator configured and a bundle that provides the
    subgraph and the edge ids of the sample type, whose ids all index the
    embedding matrix of dimension [d]: the call returns one vector per edge
    id, in the order of the edge ids, and the vector at position [k] is
    built from row u and row v of the matrix, (u, v) being the k-th pair (a
    negative id counting from the end): their concatenation, row u first,
    of length 2d for CONCAT, their element-wise product of length d for
    HADAMARD, their element-wise mean of length d for AVERAGE, product and
    mean being those of the arrays' dtype. *)
Theorem get_edge_embeddings_aligned (sample_type : SampleType) (w w1 : World)
        (op : EdgeOperator) (b : DotDict) (g : Graph) (ids : list (Z * Z)) (d : nat) :
  embedding_operator (self w) = Some op ->
  samples splitter w = (Ok b, w1) ->
  attr_graph b (graph_key sample_type) = Ok g ->
  attr_edge_ids b (ids_key sample_type) = Ok ids ->
  let E := get_embedding (fit g (embedding_model (self w))) in
  Forall (fun row => length row = d) E ->
  Forall (fun edge => valid_index E (fst edge) /\ valid_index E (snd edge)) ids ->
  exists out w',
    get_edge_embeddings splitter sample_type w = (Ok out, w') /\
    length out = length ids /\
    forall k u v, nth_error ids k = Some (u, v) ->
      exists eu ev o,
        nth_error E (Z.to_nat (u mod Z.of_nat (length E))) = Some eu /\
        nth_error E (Z.to_nat (v mod Z.of_nat (length E))) = Some ev /\
        nth_error out k = Some o /\
        edge_vector_spec op d eu ev o.
Proof.
  intros Hop Hs Hg Hids E Hdim Hvalid.
  rewrite (@get_edge_embeddings_run sample_type w w1 b g ids Hs Hg Hids), Hop. fold E.
  rewrite Forall_forall in Hdim, Hvalid.
  destruct (@mapR_total _ _ (edge_embedding op E) ids) as (out & Hout).
  { intros [u v] Hin. destruct (Hvalid _ Hin) as [Hu Hv]; simpl in *.
    destruct (getitem_valid Hu) as (eu & Heu & _).
    destruct (getitem_valid Hv) as (ev & Hev & _).
    unfold edge_embedding; simpl. rewrite Heu, Hev. eauto. }
  exists out, (fitted g w1). split; [now rewrite Hout|].
  split; [eapply mapR_length; eauto|].
  intros k u v Hk.
  destruct (mapR_nth_error _ _ Hout _ Hk) as (y & Hy & Hnth).
  apply nth_error_In in Hk. destruct (Hvalid _ Hk) as [Hu Hv]; simpl in *.
  destruct (getitem_valid Hu) as (eu & Heu & Hinu).
  destruct (getitem_valid Hv) as (ev & Hev & Hinv).
  unfold edge_embedding in Hy; simpl in Hy. rewrite Heu, Hev in Hy.
  injection Hy as <-. exists eu, ev, (edge_vector op eu ev).
  split; [apply (@getitem_row _ E u eu Hu Heu)|].
  split; [apply (@getitem_row _ E v ev Hv Hev)|].
  split; [exact Hnth|].
  apply edge_vector_meets_spec; auto.
Qed.

(** C10. With no operator configured, the call refits the embedding model
    on the subgraph of the sample type and only then raises the
    unknown-operator error: in the world the exception leaves behind the
    model is the refitted one and the fit is on record, so that world is
    not the one the call started from. *)
Theorem get_edge_embeddings_refits_before_raising (sample_type : SampleType)
        (w w1 : World) (b : DotDict) (g : Graph) (ids : list (Z * Z)) :
  embedding_operator (self w) = None ->
  samples splitter w = (Ok b, w1) ->
  attr_graph b (graph_key sample_type) = Ok g ->
  attr_edge_ids b (ids_key sample_type) = Ok ids ->
  exists w',
    get_edge_embeddings splitter sample_type w
      = (Raise (ValueError "Unknown edge operator: None"), w') /\
    embedding_model (self w') = fit g (embedding_model (self w)) /\
    trace w' = EvFit g :: trace w1 /\
    w' <> w.
Proof.
  intros Hop Hs Hg Hids.
  rewrite (@get_edge_embeddings_run sample_type w w1 b g ids Hs Hg Hids), Hop.
  destruct (@samples_inv _ _ _ Hs) as (Hc & Hgr & Hm & Hcl & Ho).
  exists (fitted g w1). repeat split; simpl; [now rewrite Hm|].
  intros Heq. apply (f_equal (fun x => length (trace x))) in Heq. simpl in Heq.
  rewrite samples_run in Hs.
  destruct (_samples (self w)) as [d|]; [destruct (truthy d)|];
    injection Hs as <- <-; simpl in Heq; lia.
Qed.

(** ** Which exceptions can escape *)


Lemma triple_bind {A B} (P : World -> Prop) (c : Py A) (R : A -> World -> Prop)
      (k : A -> Py B) (Q : B -> World -> Prop) :
  triple P c R -> (forall a, triple (R a) (k a) Q) -> triple P (bind c k) Q.
Proof.
  intros Hc Hk w Hw. unfold bind. specialize (Hc w Hw).
  destruct (c w) as [[a|e] w']; [apply Hk, Hc | exact Hc].
Qed.

Lemma triple_lift {A} (P : World -> Prop) (r : result A) (Q : A -> World -> Prop) :
  (forall e, r = Raise e -> forall msg, e <> ValueError msg) ->
  (forall a w, r = Ok a -> P w -> Q a w) ->
  triple P (lift r) Q.
Proof.
  intros He Ha w Hw. unfold lift. destruct r as [a|e]; [now apply Ha | now apply He].
Qed.

Lemma triple_gets {A} (P : World -> Prop) (f : Evaluator -> A) (Q : A -> World -> Prop) :
  (forall w, P w -> Q (f (self w)) w) -> triple P (gets f) Q.
Proof. intros HQ w Hw. simpl. auto. Qed.

Lemma triple_samples (op : EdgeOperator) :
  triple (has_operator op) (samples splitter) (fun _ => has_operator op).
Proof.
  intros w Hw. destruct (samples splitter w) as [[b|e] w1] eqn:Hs.
  - destruct (@samples_inv _ _ _ Hs) as (_ & _ & _ & _ & Ho).
    unfold has_operator in *. congruence.
  - rewrite samples_run in Hs.
    destruct (_samples (self w)) as [d|]; [destruct (truthy d)|]; discriminate.
Qed.

Lemma triple_model_fit (op : EdgeOperator) (g : Graph) :
  triple (has_operator op) (model_fit g) (fun _ => has_operator op).
Proof. intros w Hw. exact Hw. Qed.

Lemma triple_get_node_embeddings (op : EdgeOperator) (sample_type : option SampleType) :
  triple (has_operator op) (get_node_embeddings splitter sample_type)
         (fun _ => has_operator op).
Proof.
  unfold get_node_embeddings.
  eapply triple_bind with (R := fun _ => has_operator op).
  - destruct sample_type as [[]|].
    + eapply triple_bind; [apply triple_samples|]. intros s.
      eapply triple_bind; [|intros g; apply triple_model_fit].
      apply triple_lift with (Q := fun _ => has_operator op);
        [apply attr_graph_error | auto].
    + eapply triple_bind; [apply triple_samples|]. intros s.
      eapply triple_bind; [|intros g; apply triple_model_fit].
      apply triple_lift with (Q := fun _ => has_operator op);
        [apply attr_graph_error | auto].
    + eapply triple_bind; [|intros g; apply triple_model_fit].
      apply triple_gets with (Q := fun _ => has_operator op). auto.
  - intros _. apply triple_gets. auto.
Qed.

Lemma edge_embedding_error (op : EdgeOperator) (E : ndarray) (ids : list (Z * Z)) (e : exn) :
  mapR (edge_embedding op E) ids = Raise e -> forall msg, e <> ValueError msg.
Proof.
  intros Hm msg. apply mapR_error in Hm. destruct Hm as ([u v] & _ & Hx).
  unfold edge_embedding in Hx; simpl in Hx.
  destruct (getitem E u) as [eu|e1] eqn:Eu.
  - destruct (getitem E v) as [ev|e2] eqn:Ev; [discriminate|].
    injection Hx as <-. apply getitem_error in Ev. now subst.
  - injection Hx as <-. apply getitem_error in Eu. now subst.
Qed.

Lemma triple_get_edge_embeddings (op : EdgeOperator) (sample_type : SampleType) :
  triple (has_operator op) (get_edge_embeddings splitter sample_type)
         (fun _ => has_operator op).
Proof.
  unfold get_edge_embeddings.
  eapply triple_bind with (R := fun _ => has_operator op).
  { destruct (SampleType_eqb sample_type TRAIN); apply triple_get_node_embeddings. }
  intros E. eapply triple_bind; [apply triple_samples|]. intros s.
  eapply triple_bind with (R := fun _ => has_operator op).
  { apply triple_lift; [apply attr_edge_ids_error | auto]. }
  intros ids.
  eapply triple_bind with (R := fun o w => o = Some op /\ has_operator op w).
  { apply triple_gets. auto. }
  intros o w [-> Hw].
  destruct op; simpl; unfold lift;
    match goal with
    | |- context [mapR ?f ?l] =>
        destruct (mapR f l) as [out|e] eqn:Em;
        [exact Hw | eapply edge_embedding_error; eauto]
    end.
Qed.





Variable roc_auc_score : list Z -> list Q -> Q.



(** C3 fails on the code: the guard takes Python's truth value of the
    classifier object instead of testing whether one is set.  With a
    classifier set whose truth test raises, the call raises that exception
    at the guard, whatever the operator is, so an unset operator does not
    give the configuration error; with a classifier set whose truth value
    is False, the call raises the configuration error although the
    classifier is set, whatever the operator is.  In both cases nothing
    was computed. *)
Theorem get_roc_auc_score_guard_takes_truth_value (w : World) (c : C) :
  classifier (self w) = Some c ->
  (forall e, clf_bool c = Raise e ->
     get_roc_auc_score splitter roc_auc_score w = (Raise e, w)) /\
  (clf_bool c = Ok false ->
     get_roc_auc_score splitter roc_auc_score w
     = (Raise (ValueError config_error_msg), w)).
Proof.
  intros Hc. split.
  - intros e He. unfold get_roc_auc_score, bind, gets, lift, not_classifier.
    now rewrite Hc, He.
  - intros Hf. unfold get_roc_auc_score, bind, gets, lift, not_classifier, raise.
    now rewrite Hc, Hf.
Qed.

(** C6. With no operator configured (the only value outside CONCAT,
    HADAMARD, AVERAGE the field can hold) and a bundle that provides the
    subgraph and the edge ids, the call raises the unknown-operator
    ValueError, whose message ends with the rendering of the offending
    value.  With any of the three operators configured, the call never
    raises a ValueError. *)
Theorem get_edge_embeddings_unknown_operator (sample_type : SampleType) (w : World) :
  (forall w1 b g ids,
     embedding_operator (self w) = None ->
     samples splitter w = (Ok b, w1) ->
     attr_graph b (graph_key sample_type) = Ok g ->
     attr_edge_ids b (ids_key sample_type) = Ok ids ->
     exists w',
       get_edge_embeddings splitter sample_type w
       = (Raise (ValueError ("Unknown edge operator: "
                             ++ str_EdgeOperator (embedding_operator (self w)))), w') /\
       str_EdgeOperator (embedding_operator (self w)) = "None"%string) /\
  (forall op, embedding_operator (self w) = Some op ->
     forall msg w',
       get_edge_embeddings splitter sample_type w <> (Raise (ValueError msg), w')).
Proof.
  split.
  - intros w1 b g ids Hop Hs Hg Hids.
    rewrite (@get_edge_embeddings_run sample_type w w1 b g ids Hs Hg Hids), Hop.
    exists (fitted g w1). split; reflexivity.
  - intros op Hop msg w' Hr.
    pose proof (@triple_get_edge_embeddings op sample_type w Hop) as Ht.
    rewrite Hr in Ht. now apply (Ht msg).
Qed.

End EvaluatorProperties.

(* ===================================================================== *)
(** * Properties of get_precision_at_100                                  *)
(* ===================================================================== *)

Lemma np_tril_row_lengths (m : ndarray) (k : Z) :
  map (@length Q) (np_tril m k) = map (@length Q) m.
Proof.
  unfold np_tril, mapi.
  set (frow := fun (i : nat) (row : list Q) =>
                 mapi_from 0 (fun j x => if tril_keep k i j then x else 0%Q) row).
  assert (Hgen : forall s, map (@length Q) (mapi_from s frow m) = map (@length Q) m).
  { induction m as [|row m IH]; intros s; simpl; [reflexivity|].
    unfold frow at 1. now rewrite mapi_from_length, IH. }
  apply Hgen.
Qed.

Section PrecisionProperties.

Context {dt : Dtype} {M C : Type} {EM : EmbeddingModel M} {CE : ClassifierEstimator C}.

Variable splitter : Graph -> nat -> DotDict.
Variable cosine_similarity : ndarray -> ndarray.
Variable np : Numpy.
Hypothesis Hnp : NumpyContract np.

(** C7. For each of the three measures the similarity matrix exists, the
    masked matrix has its shape, every entry on or above the diagonal of
    the masked matrix is zero and every entry strictly below the diagonal
    is the entry of the unmasked matrix. *)
Theorem masked_similarities_strict_lower_triangle
        (measure : SimilarityMeasure) (E : ndarray) :
  exists sim masked,
    similarity cosine_similarity (Some measure) E = Ok sim /\
    masked_similarities cosine_similarity (Some measure) E = Ok masked /\
    map (@length Q) masked = map (@length Q) sim /\
    forall i j,
      ((i <= j)%nat -> entry masked i j = 0%Q) /\
      ((j < i)%nat -> entry masked i j = entry sim i j).
Proof.
  assert (Hsim : exists sim, similarity cosine_similarity (Some measure) E = Ok sim)
    by (destruct measure; unfold similarity; simpl; eexists; reflexivity).
  destruct Hsim as (sim & Hsim).
  exists sim, (np_tril sim (-1)). split; [exact Hsim|].
  split; [unfold masked_similarities; now rewrite Hsim|].
  split; [apply np_tril_row_lengths|].
  intros i j. rewrite np_tril_entry.
  split; intros Hij.
  - destruct (tril_keep (-1) i j) eqn:Hk; [|reflexivity].
    apply (below_diagonal_spec i j) in Hk. lia.
  - assert (Hk : tril_keep (-1) i j = true) by now apply (below_diagonal_spec i j).
    now rewrite Hk.
Qed.

Lemma get_precision_at_100_run (measure : option SimilarityMeasure) (w : @World M C) :
  get_precision_at_100 splitter cosine_similarity np measure w =
  match masked_similarities cosine_similarity measure
          (get_embedding (fit (graph (self w)) (embedding_model (self w)))) with
  | Raise e => (Raise e, fitted (graph (self w)) w)
  | Ok sim =>
      match top100 np sim with
      | Raise e => (Raise e, fitted (graph (self w)) w)
      | Ok pairs =>
          (Ok (inject_Z (Z.of_nat (count_tp (graph (self w)) pairs)) / 100)%Q,
           fitted (graph (self w)) w)
      end
  end.
Proof.
  unfold get_precision_at_100, get_node_embeddings, bind, gets, lift, ret,
    model_fit, model_get_embedding, fitted. simpl.
  destruct (masked_similarities _ _ _) as [sim|e]; [|reflexivity].
  destruct (top100 np sim) as [pairs|e]; reflexivity.
Qed.

(** C8. A value returned by get_precision_at_100 is the number of ranked
    pairs joined by an edge of the Evaluator's graph, divided by 100; there
    are at most 100 ranked pairs, so the value is k/100 for an integer k
    between 0 and 100. *)
Theorem get_precision_at_100_value
        (measure : option SimilarityMeasure) (w w' : @World M C) (q : Q) :
  get_precision_at_100 splitter cosine_similarity np measure w = (Ok q, w') ->
  exists sim pairs,
    masked_similarities cosine_similarity measure
      (get_embedding (fit (graph (self w)) (embedding_model (self w)))) = Ok sim /\
    top100 np sim = Ok pairs /\
    let tp := length (filter (fun idx => has_edge (graph (self w))
                                                  (Z.of_nat (fst idx)) (Z.of_nat (snd idx)))
                             pairs) in
    (tp <= 100)%nat /\ q = (inject_Z (Z.of_nat tp) / 100)%Q.
Proof.
  rewrite get_precision_at_100_run.
  destruct (masked_similarities _ _ _) as [sim|e]; [|discriminate].
  destruct (top100 np sim) as [pairs|e] eqn:Ht; [|discriminate].
  intros [= <- _]. exists sim, pairs. split; [reflexivity|]. split; [exact Ht|].
  rewrite count_tp_filter. split; [|reflexivity].
  apply (top100_length Hnp) in Ht.
  eapply Nat.le_trans; [apply filter_length_le | exact Ht].
Qed.

End PrecisionProperties.

(* ===================================================================== *)
(** * The 10-node scenario                                                *)
(* ===================================================================== *)

Lemma unravel_positions_10 : map (unravel 10) (seq 0 100) = positions 10 10.
Proof. vm_compute. reflexivity. Qed.

Lemma ten_nodes_masked_rectangular {dt : Dtype} (E : ndarray) :
  length E = 10%nat -> rectangular 10 10 (np_tril (hamming E) (-1)).
Proof.
  intros HE. apply np_tril_rectangular.
  pose proof (hamming_rectangular E) as Hrect. now rewrite HE in Hrect.
Qed.

(** C2 fails on the code.  On 10 nodes under HAMMING the mask keeps
    exactly 45 positions and every other position of the masked matrix is
    zero, as the claim says; but the top-100 selection is not clamped to
    the 45 pairs below the diagonal: whatever order numpy gives to ties, it
    returns 100 ranked pairs, the 45 below the diagonal and the 55 zeroed
    positions on or above it.  The mask zeroes those positions without
    taking them out of the candidates, the defect C1 shows. *)
Theorem top100_of_ten_nodes_is_not_clamped {dt : Dtype}
        (cosine_similarity : ndarray -> ndarray) (np : Numpy) (E : ndarray) :
  NumpyContract np ->
  length E = 10%nat ->
  exists sim pairs,
    masked_similarities cosine_similarity (Some HAMMING) E = Ok sim /\
    shape sim = (10%nat, 10%nat) /\
    length (filter below_diagonal (positions 10 10)) = 45%nat /\
    (forall i j, below_diagonal (i, j) = false -> entry sim i j = 0%Q) /\
    top100 np sim = Ok pairs /\
    length pairs = 100%nat /\
    length (filter below_diagonal pairs) = 45%nat /\
    length (filter (fun p => negb (below_diagonal p)) pairs) = 55%nat.
Proof.
  intros Hnp HE.
  pose proof (ten_nodes_masked_rectangular E HE) as Hrect.
  destruct (@top100_ranks_everything np Hnp 10 10 _ Hrect eq_refl) as (pairs & Ht & Hp).
  rewrite unravel_positions_10 in Hp.
  exists (np_tril (hamming E) (-1)), pairs.
  split; [reflexivity|].
  split; [apply shape_rectangular; [exact Hrect | lia]|].
  split; [reflexivity|].
  split.
  { intros i j Hk. rewrite np_tril_entry.
    unfold below_diagonal in Hk; simpl in Hk. now rewrite Hk. }
  split; [exact Ht|].
  split; [rewrite (Permutation_length Hp); reflexivity|].
  split; rewrite (filter_length_perm _ Hp); reflexivity.
Qed.

Lemma top100_of_ten_nodes_is_not_clamped_witness :
  exists sim pairs,
    masked_similarities cosine_similarity_unused (Some HAMMING) scenario_embedding
      = Ok sim /\
    shape sim = (10%nat, 10%nat) /\
    length (filter below_diagonal (positions 10 10)) = 45%nat /\
    (forall i j, below_diagonal (i, j) = false -> entry sim i j = 0%Q) /\
    top100 numpy_ref sim = Ok pairs /\
    length pairs = 100%nat /\
    length (filter below_diagonal pairs) = 45%nat /\
    length (filter (fun p => negb (below_diagonal p)) pairs) = 55%nat.
Proof.
  apply (top100_of_ten_nodes_is_not_clamped
           cosine_similarity_unused scenario_embedding numpy_ref_contract).
  reflexivity.
Defined.

(** C1 fails on the 10-node scenario, whatever order numpy gives to ties:
    the call returns, all 100 positions of the matrix are ranked, among them
    the self-pair (0, 0) and both (0, 1) and (1, 0); 55 of the ranked pairs
    are not below the diagonal, and the three edges of the graph are
    counted twice each. *)
Theorem get_precision_at_100_ranks_pairs_off_the_lower_triangle {dt : Dtype}
        (cosine_similarity : ndarray -> ndarray) (np : Numpy) :
  NumpyContract np ->
  exists sim pairs w',
    masked_similarities cosine_similarity (Some HAMMING) scenario_embedding = Ok sim /\
    top100 np sim = Ok pairs /\
    In (0%nat, 0%nat) pairs /\ In (0%nat, 1%nat) pairs /\ In (1%nat, 0%nat) pairs /\
    length (filter (fun p => negb (below_diagonal p)) pairs) = 55%nat /\
    get_precision_at_100 scenario_splitter cosine_similarity np (Some HAMMING)
                         (scenario_world None None)
    = (Ok (6 # 100), w').
Proof.
  intros Hnp.
  pose proof (ten_nodes_masked_rectangular scenario_embedding eq_refl) as Hrect.
  destruct (@top100_ranks_everything np Hnp 10 10 _ Hrect eq_refl) as (pairs & Ht & Hp).
  rewrite unravel_positions_10 in Hp.
  exists (np_tril (hamming scenario_embedding) (-1)), pairs,
         (fitted scenario_graph (scenario_world None None)).
  split; [reflexivity|]. split; [exact Ht|].
  assert (Hin : forall p, In p (positions 10 10) -> In p pairs)
    by (intros p; apply Permutation_in, Permutation_sym, Hp).
  split; [apply Hin; vm_compute; tauto|].
  split; [apply Hin; vm_compute; tauto|].
  split; [apply Hin; vm_compute; tauto|].
  split; [rewrite (filter_length_perm _ Hp); reflexivity|].
  rewrite get_precision_at_100_run.
  change (masked_similarities cosine_similarity (Some HAMMING)
            (get_embedding (fit (graph (self (scenario_world None None)))
                                (embedding_model (self (scenario_world None None))))))
    with (Ok (A := list (list Q)) (np_tril (hamming scenario_embedding) (-1))).
  cbv iota. rewrite Ht, count_tp_filter, (filter_length_perm _ Hp).
  reflexivity.
Qed.

Lemma get_precision_at_100_ranks_pairs_off_the_lower_triangle_witness :
  exists sim pairs w',
    masked_similarities cosine_similarity_unused (Some HAMMING) scenario_embedding
      = Ok sim /\
    top100 numpy_ref sim = Ok pairs /\
    In (0%nat, 0%nat) pairs /\ In (0%nat, 1%nat) pairs /\ In (1%nat, 0%nat) pairs /\
    length (filter (fun p => negb (below_diagonal p)) pairs) = 55%nat /\
    get_precision_at_100 scenario_splitter cosine_similarity_unused numpy_ref
                         (Some HAMMING) (scenario_world None None)
    = (Ok (6 # 100), w').
Proof.
  apply (get_precision_at_100_ranks_pairs_off_the_lower_triangle
           cosine_similarity_unused numpy_ref_contract).
Defined.

(* ===================================================================== *)
(** * Runs of the scenario                                                *)
(* ===================================================================== *)

Lemma samples_computed_once_witness :
  samples varying_splitter (scenario_world None None)
  = (Ok (varying_splitter scenario_graph 0),
     refreshed varying_splitter (scenario_world None None)) /\
  samples varying_splitter (refreshed varying_splitter (scenario_world None None))
  = (Ok (varying_splitter scenario_graph 0),
     refreshed varying_splitter (scenario_world None None)).
Proof.
  pose proof (@samples_computed_once StubModel nat varying_splitter
                (scenario_world None None)) as [Hfirst [_ Hnext]].
  destruct (Hfirst eq_refl) as [Hrun _].
  split; [exact Hrun | exact (Hnext _ _ Hrun)].
Defined.

Lemma get_roc_auc_score_guard_takes_truth_value_witness :
  get_roc_auc_score scenario_splitter roc_auc_score_ref
                    (ensemble_world (mkEnsemble 10 None) None)
  = (Raise (AttributeError "estimators_"), ensemble_world (mkEnsemble 10 None) None).
Proof.
  apply (proj1 (@get_roc_auc_score_guard_takes_truth_value
                  exact_dtype StubModel Ensemble _ _
                  scenario_splitter roc_auc_score_ref
                  (ensemble_world (mkEnsemble 10 None) None)
                  (mkEnsemble 10 None) eq_refl)).
  reflexivity.
Defined.


(** An ensemble whose list of estimators is empty is a classifier that is
    set and falsy: the guard answers with the configuration error although
    both the classifier and the operator are set. *)
Example get_roc_auc_score_rejects_falsy_classifier :
  get_roc_auc_score scenario_splitter roc_auc_score_ref
                    (ensemble_world (mkEnsemble 0 (Some 0%nat)) (Some CONCAT))
  = (Raise (ValueError config_error_msg),
     ensemble_world (mkEnsemble 0 (Some 0%nat)) (Some CONCAT)).
Proof. reflexivity. Qed.

Lemma get_edge_embeddings_aligned_witness :
  exists out w',
    get_edge_embeddings scenario_splitter TRAIN (scenario_world None (Some AVERAGE))
    = (Ok out, w') /\
    length out = 2%nat /\
    forall k u v, nth_error [(0, 1); (2, -1)]%Z k = Some (u, v) ->
      exists eu ev o,
        nth_error scenario_embedding
                  (Z.to_nat (u mod Z.of_nat (length scenario_embedding))) = Some eu /\
        nth_error scenario_embedding
                  (Z.to_nat (v mod Z.of_nat (length scenario_embedding))) = Some ev /\
        nth_error out k = Some o /\
        edge_vector_spec AVERAGE 4 eu ev o.
Proof.
  refine (@get_edge_embeddings_aligned
            exact_dtype StubModel nat _ scenario_splitter TRAIN
            (scenario_world None (Some AVERAGE))
            (refreshed scenario_splitter (scenario_world None (Some AVERAGE)))
            AVERAGE (scenario_bundle scenario_graph)
            (mkGraph (nodes scenario_graph) [(0, 1)]%Z)
            [(0, 1); (2, -1)]%Z 4%nat _ _ _ _ _ _);
    try reflexivity.
  - repeat constructor.
  - repeat constructor; simpl; lia.
Defined.

Lemma get_edge_embeddings_refits_before_raising_witness :
  exists w',
    get_edge_embeddings scenario_splitter TEST (scenario_world None None)
    = (Raise (ValueError "Unknown edge operator: None"), w') /\
    embedding_model (self w')
    = fit (mkGraph (nodes scenario_graph) [(2, 3)]%Z)
          (embedding_model (self (scenario_world None None))) /\
    trace w' = EvFit (mkGraph (nodes scenario_graph) [(2, 3)]%Z)
               :: trace (refreshed scenario_splitter (scenario_world None None)) /\
    w' <> scenario_world None None.
Proof.
  apply (@get_edge_embeddings_refits_before_raising
           exact_dtype StubModel nat _ scenario_splitter TEST
           (scenario_world None None)
           (refreshed scenario_splitter (scenario_world None None))
           (scenario_bundle scenario_graph)
           (mkGraph (nodes scenario_graph) [(2, 3)]%Z)
           [(2, 3); (4, 5)]%Z);
    reflexivity.
Defined.

Lemma get_edge_embeddings_unknown_operator_witness :
  exists w',
    get_edge_embeddings scenario_splitter TRAIN (scenario_world None None)
    = (Raise (ValueError "Unknown edge operator: None"), w') /\
    str_EdgeOperator (embedding_operator (self (scenario_world None None)))
    = "None"%string.
Proof.
  apply (proj1 (@get_edge_embeddings_unknown_operator
                  exact_dtype StubModel nat _ scenario_splitter TRAIN
                  (scenario_world None None))
               (refreshed scenario_splitter (scenario_world None None))
               (scenario_bundle scenario_graph)
               (mkGraph (nodes scenario_graph) [(0, 1)]%Z)
               [(0, 1); (2, -1)]%Z);
    reflexivity.
Defined.

Lemma get_precision_at_100_value_witness :
  exists sim pairs,
    masked_similarities cosine_similarity_unused (Some HAMMING) scenario_embedding
      = Ok sim /\
    top100 numpy_ref sim = Ok pairs /\
    let tp := length (filter (fun idx => has_edge scenario_graph
                                                  (Z.of_nat (fst idx)) (Z.of_nat (snd idx)))
                             pairs) in
    (tp <= 100)%nat /\ (6 # 100) = (inject_Z (Z.of_nat tp) / 100)%Q.
Proof.
  refine (@get_precision_at_100_value
            exact_dtype StubModel nat _ scenario_splitter cosine_similarity_unused
            numpy_ref
            numpy_ref_contract (Some HAMMING) (scenario_world None None)
            (fitted scenario_graph (scenario_world None None)) (6 # 100) _).
  vm_compute. reflexivity.
Defined.

(** The stub classifier predicts one probability for every edge: the area
    under the curve is one half. *)
Example get_roc_auc_score_constant_classifier :
  fst (get_roc_auc_score scenario_splitter roc_auc_score_ref
                         (scenario_world (Some 0%nat) (Some CONCAT)))
  = Ok (1 # 2).
Proof. vm_compute. reflexivity. Qed.

(* ===================================================================== *)
(** * The similarity matrices                                             *)
(* ===================================================================== *)

(** Entry (i, j) of a matrix built from every pair of rows. *)
Lemma pairwise_entry (f : list Q -> list Q -> Q) (E : ndarray) (i j : nat) :
  entry (map (fun u => map (fun v => f u v) E) E) i j
  = if ((i <? length E) && (j <? length E))%nat
    then f (nth i E []) (nth j E []) else 0%Q.
Proof.
  unfold entry.
  destruct (Nat.ltb_spec i (length E)) as [Hi|Hi]; simpl.
  - rewrite (nth_indep _ [] (map (fun v => f [] v) E)) by (rewrite length_map; exact Hi).
    rewrite (map_nth (fun u => map (fun v => f u v) E) E [] i).
    destruct (Nat.ltb_spec j (length E)) as [Hj|Hj].
    + rewrite (nth_indep _ 0%Q (f (nth i E []) [])) by (rewrite length_map; exact Hj).
      apply (map_nth (fun v => f (nth i E []) v) E [] j).
    + apply nth_overflow. now rewrite length_map.
  - rewrite (nth_overflow _ []) by (rewrite length_map; exact Hi).
    now destruct j.
Qed.

Lemma pairwise_symmetric (f : list Q -> list Q -> Q) (E : ndarray) (i j : nat) :
  (forall u v, f u v = f v u) ->
  entry (map (fun u => map (fun v => f u v) E) E) i j
  = entry (map (fun u => map (fun v => f u v) E) E) j i.
Proof.
  intros Hf. rewrite !pairwise_entry, (andb_comm (j <? _)%nat).
  destruct (_ && _)%bool; [apply Hf | reflexivity].
Qed.

Lemma count_eq_comm {dt : Dtype} (u v : list Q) : count_eq u v = count_eq v u.
Proof.
  revert v; induction u as [|x u IH]; intros [|y v]; simpl; auto.
  now rewrite dt_eqb_sym, IH.
Qed.

Lemma count_eq_refl {dt : Dtype} (u : list Q) :
  Forall (fun x => dt_eqb x x = true) u -> count_eq u u = length u.
Proof.
  induction 1 as [|x u Hx _ IH]; simpl; [reflexivity|].
  now rewrite Hx, IH.
Qed.

Lemma count_eq_le {dt : Dtype} (u v : list Q) : (count_eq u v <= length u)%nat.
Proof.
  revert v; induction u as [|x u IH]; intros [|y v]; simpl; try lia.
  specialize (IH v). destruct (dt_eqb x y); lia.
Qed.

Lemma dotv_comm (u v : list Q) : dotv u v = dotv v u.
Proof. unfold dotv. f_equal. apply zip_with_comm, Qmult_comm_eq. Qed.

(** X1. The HAMMING matrix is symmetric: entry (i, j) is entry (j, i), at
    every position. *)
Theorem hamming_symmetric {dt : Dtype} (E : ndarray) (i j : nat) :
  entry (hamming E) i j = entry (hamming E) j i.
Proof.
  unfold hamming.
  apply (pairwise_symmetric (fun u v => inject_Z (Z.of_nat (count_eq u v)))).
  intros u v. now rewrite count_eq_comm.
Qed.

(** X2. With rows of dimension [d], every entry of the HAMMING matrix lies
    between 0 and d.  For a row whose cells all equal themselves (under
    numpy's [==] every cell but NaN does), the diagonal entry is d, and so
    is the entry of that row with a row holding the same vector. *)
Theorem hamming_bounds {dt : Dtype} (E : ndarray) (d i j : nat) :
  Forall (fun row => length row = d) E ->
  (i < length E)%nat -> (j < length E)%nat ->
  (0 <= entry (hamming E) i j)%Q /\
  (entry (hamming E) i j <= inject_Z (Z.of_nat d))%Q /\
  (Forall (fun x => dt_eqb x x = true) (nth i E []) ->
     entry (hamming E) i i = inject_Z (Z.of_nat d) /\
     (nth i E [] = nth j E [] -> entry (hamming E) i j = inject_Z (Z.of_nat d))).
Proof.
  intros Hdim Hi Hj. unfold hamming.
  rewrite !(pairwise_entry (fun u v => inject_Z (Z.of_nat (count_eq u v)))).
  apply Nat.ltb_lt in Hi as Hi', Hj as Hj'. rewrite Hi', Hj'. simpl.
  rewrite Forall_forall in Hdim.
  assert (Hrow : length (nth i E []) = d) by (apply Hdim, nth_In, Hi).
  split; [|split].
  - rewrite <- (Zle_Qle 0). lia.
  - rewrite <- Zle_Qle. pose proof (count_eq_le (nth i E []) (nth j E [])). lia.
  - intros Hself. split.
    + now rewrite (count_eq_refl Hself), Hrow.
    + intros <-. now rewrite (count_eq_refl Hself), Hrow.
Qed.

Lemma hamming_bounds_witness :
  (0 <= entry (hamming scenario_embedding) 3 7)%Q /\
  (entry (hamming scenario_embedding) 3 7 <= inject_Z (Z.of_nat 4))%Q /\
  (Forall (fun x => dt_eqb x x = true) (nth 3 scenario_embedding []) ->
     entry (hamming scenario_embedding) 3 3 = inject_Z (Z.of_nat 4) /\
     (nth 3 scenario_embedding [] = nth 7 scenario_embedding [] ->
      entry (hamming scenario_embedding) 3 7 = inject_Z (Z.of_nat 4))).
Proof.
  apply (@hamming_bounds exact_dtype scenario_embedding 4 3 7).
  - repeat constructor.
  - simpl; lia.
  - simpl; lia.
Defined.

(** X3. The DOT_PRODUCT matrix is symmetric at every position. *)
Theorem dot_transpose_symmetric (E : ndarray) (i j : nat) :
  entry (dot_transpose E) i j = entry (dot_transpose E) j i.
Proof. unfold dot_transpose. apply (pairwise_symmetric dotv), dotv_comm. Qed.

(* ===================================================================== *)
(** * More on the ranking and on get_precision_at_100                     *)
(* ===================================================================== *)

Lemma in_positions (r c : nat) (p : nat * nat) :
  In p (positions r c) <-> (fst p < r)%nat /\ (snd p < c)%nat.
Proof.
  destruct p as [i j]. unfold positions. rewrite in_prod_iff, !in_seq. simpl. lia.
Qed.

Lemma unravel_flat (c i j : nat) : (j < c)%nat -> unravel c (i * c + j) = (i, j).
Proof.
  intros Hj. unfold unravel.
  rewrite Nat.div_add_l, Nat.div_small, Nat.add_0_r by lia.
  rewrite Nat.add_comm, Nat.Div0.mod_add, Nat.mod_small by lia. reflexivity.
Qed.

Lemma similarity_rectangular {dt : Dtype} (cosine_similarity : ndarray -> ndarray)
      (measure : SimilarityMeasure) (E : ndarray) :
  measure <> COSINE ->
  exists sim,
    masked_similarities cosine_similarity (Some measure) E = Ok (np_tril sim (-1)) /\
    rectangular (length E) (length E) (np_tril sim (-1)).
Proof.
  intros Hm. destruct measure; [congruence| |].
  - exists (hamming E). split; [reflexivity|].
    apply np_tril_rectangular, hamming_rectangular.
  - exists (dot_transpose E). split; [reflexivity|].
    apply np_tril_rectangular, dot_transpose_rectangular.
Qed.

Section PrecisionExtras.

Context {dt : Dtype} {M C : Type} {EM : EmbeddingModel M} {CE : ClassifierEstimator C}.

Variable splitter : Graph -> nat -> DotDict.
Variable cosine_similarity : ndarray -> ndarray.
Variable np : Numpy.
Hypothesis Hnp : NumpyContract np.

(** X5. On an array of at least 100 entries, no position left out of the
    ranking has a larger entry than a ranked one. *)
Theorem top100_dominates (r c : nat) (m : ndarray) (pairs : list (nat * nat))
        (p q : nat * nat) :
  rectangular r c m -> (100 <= r * c)%nat ->
  top100 np m = Ok pairs ->
  In p pairs -> In q (positions r c) -> ~ In q pairs ->
  (entry m (fst q) (snd q) <= entry m (fst p) (snd p))%Q.
Proof.
  intros Hrect Hsize Ht Hp Hq Hnq.
  destruct (top100_run Hnp Hrect Hsize) as (part & Ep & Ht').
  rewrite Ht in Ht'. injection Ht' as ->.
  pose proof (reorder_perm Hnp (ravel m) (lastn 100 part)) as Hperm.
  pose proof (argpartition_perm Hnp _ _ Ep) as Hpart.
  pose proof (ravel_length Hrect) as Hlen. rewrite Hlen in Hpart.
  apply in_map_iff in Hp. destruct Hp as (x & <- & Hx).
  apply (Permutation_in _ Hperm) in Hx.
  destruct q as [qi qj]. apply in_positions in Hq. simpl in Hq. destruct Hq as [Hqi Hqj].
  set (y := (qi * c + qj)%nat).
  assert (Hy : (y < r * c)%nat) by (unfold y; nia).
  assert (Hyq : unravel c y = (qi, qj)) by (apply unravel_flat; exact Hqj).
  assert (Hyin : In y (firstn (length part - 100) part)).
  { assert (Hin : In y part)
      by (apply (Permutation_in _ (Permutation_sym Hpart)), in_seq; lia).
    rewrite <- (firstn_skipn (length part - 100) part) in Hin.
    apply in_app_or in Hin. destruct Hin as [Hin|Hin]; [exact Hin|].
    exfalso. apply Hnq. rewrite <- Hyq. apply in_map.
    apply (Permutation_in _ (Permutation_sym Hperm)). exact Hin. }
  assert (Hxb : (x < r * c)%nat).
  { apply perm_seq_bound in Hpart. rewrite Forall_forall in Hpart. apply Hpart.
    unfold lastn in Hx.
    rewrite <- (firstn_skipn (length part - 100) part). apply in_or_app. now right. }
  simpl. unfold unravel; simpl.
  rewrite <- (ravel_nth Hrect Hxb).
  replace (entry m qi qj) with (val (ravel m) y).
  - apply (@selection_dominates np Hnp (ravel m) part x y); auto. lia.
  - rewrite (ravel_nth Hrect Hy). unfold unravel in Hyq.
    injection Hyq as Hdiv Hmod. now rewrite Hdiv, Hmod.
Qed.

(** X6. Whatever the measure and whatever the outcome, the call leaves
    behind exactly one more fit of the embedding model, on the full graph:
    the bundle cache, the classifier, the operator and the graph are as
    before, and neither the splitter nor the classifier was called. *)
Theorem get_precision_at_100_effect (measure : option SimilarityMeasure) (w : @World M C) :
  let w' := snd (get_precision_at_100 splitter cosine_similarity np measure w) in
  embedding_model (self w') = fit (graph (self w)) (embedding_model (self w)) /\
  trace w' = EvFit (graph (self w)) :: trace w /\
  _samples (self w') = _samples (self w) /\
  classifier (self w') = classifier (self w) /\
  embedding_operator (self w') = embedding_operator (self w) /\
  graph (self w') = graph (self w).
Proof.
  rewrite get_precision_at_100_run.
  destruct (masked_similarities _ _ _) as [sim|e]; [destruct (top100 np sim)|];
    simpl; repeat split.
Qed.

(** X7. An unset measure is rejected with the unknown-measure ValueError,
    whose message names the value, but only after the embedding model was
    refitted on the full graph. *)
Theorem get_precision_at_100_unknown_measure (w : @World M C) :
  get_precision_at_100 splitter cosine_similarity np None w
  = (Raise (ValueError "Unknown similarity measure: None"),
     fitted (graph (self w)) w) /\
  fitted (graph (self w)) w <> w.
Proof.
  split; [now rewrite get_precision_at_100_run|].
  intros Heq. apply (f_equal (fun x => length (trace x))) in Heq. simpl in Heq. lia.
Qed.

(** X8. On a graph of fewer than 10 nodes (and at least one) the HAMMING
    and DOT_PRODUCT rankings raise a ValueError: the flattened matrix has
    fewer than 100 entries and the partition index is out of bounds.  The
    model was refitted before. *)
Theorem get_precision_at_100_too_few_nodes (measure : SimilarityMeasure) (w : @World M C) :
  measure <> COSINE ->
  let E := get_embedding (fit (graph (self w)) (embedding_model (self w))) in
  (0 < length E < 10)%nat ->
  exists msg,
    get_precision_at_100 splitter cosine_similarity np (Some measure) w
    = (Raise (ValueError msg), fitted (graph (self w)) w).
Proof.
  intros Hm E HE. rewrite get_precision_at_100_run. fold E.
  destruct (similarity_rectangular cosine_similarity E Hm) as (sim & Hs & Hrect).
  rewrite Hs. pose proof (ravel_length Hrect) as Hlen.
  destruct (@argpartition_out_of_bounds np Hnp (ravel (np_tril sim (-1))) (-100))
    as (msg & Hmsg).
  - intros Hnil. rewrite Hnil in Hlen. simpl in Hlen. nia.
  - unfold kth_in_bounds, norm_kth. rewrite Hlen.
    change (-100 <? 0)%Z with true. cbv iota.
    apply andb_false_iff. left. apply Z.leb_gt. nia.
  - exists msg. unfold top100. now rewrite Hmsg.
Qed.

(** X9. On a graph of at least 10 nodes the HAMMING and DOT_PRODUCT
    rankings return: exactly 100 pairs are ranked and the score is their
    true-positive count over 100. *)
Theorem get_precision_at_100_returns (measure : SimilarityMeasure) (w : @World M C) :
  measure <> COSINE ->
  let E := get_embedding (fit (graph (self w)) (embedding_model (self w))) in
  (10 <= length E)%nat ->
  exists sim pairs,
    masked_similarities cosine_similarity (Some measure) E = Ok sim /\
    top100 np sim = Ok pairs /\
    length pairs = 100%nat /\
    get_precision_at_100 splitter cosine_similarity np (Some measure) w
    = (Ok (inject_Z (Z.of_nat (count_tp (graph (self w)) pairs)) / 100)%Q,
       fitted (graph (self w)) w).
Proof.
  intros Hm E HE. rewrite get_precision_at_100_run. fold E.
  destruct (similarity_rectangular cosine_similarity E Hm) as (sim & Hs & Hrect).
  assert (Hsize : (100 <= length E * length E)%nat) by nia.
  destruct (top100_run Hnp Hrect Hsize) as (part & Ep & Ht).
  exists (np_tril sim (-1)),
         (map (unravel (length E)) (reorder np (ravel (np_tril sim (-1))) (lastn 100 part))).
  split; [exact Hs|]. split; [exact Ht|].
  split; [apply (top100_never_clamps Hnp Hrect Hsize Ht)|].
  now rewrite Hs, Ht.
Qed.

End PrecisionExtras.

Lemma not_in_pairs (q : nat * nat) (l : list (nat * nat)) :
  existsb (fun x => (fst x =? fst q) && (snd x =? snd q))%nat l = false -> ~ In q l.
Proof.
  intros He Hin.
  assert (Ht : existsb (fun x => (fst x =? fst q) && (snd x =? snd q))%nat l = true).
  { apply existsb_exists. exists q. split; [exact Hin|]. now rewrite !Nat.eqb_refl. }
  congruence.
Qed.

Lemma scenario_masked_11_rectangular : rectangular 11 11 scenario_masked_11.
Proof. apply np_tril_rectangular, (hamming_rectangular scenario_embedding_11). Qed.

Lemma scenario_ranking_11_run : top100 numpy_ref scenario_masked_11 = Ok scenario_ranking_11.
Proof. vm_compute. reflexivity. Qed.

Lemma top100_descending_witness :
  (entry scenario_masked_11 (fst (nth 99 scenario_ranking_11 (0, 0)%nat))
                            (snd (nth 99 scenario_ranking_11 (0, 0)%nat))
   <= entry scenario_masked_11 (fst (nth 0 scenario_ranking_11 (0, 0)%nat))
                               (snd (nth 0 scenario_ranking_11 (0, 0)%nat)))%Q.
Proof.
  refine (@top100_descending numpy_ref numpy_ref_contract 11 11 scenario_masked_11
            scenario_ranking_11 0 99 scenario_masked_11_rectangular _
            scenario_ranking_11_run _).
  - simpl; lia.
  - simpl; lia.
Defined.

Lemma top100_dominates_witness :
  (entry scenario_masked_11 0 0 <= entry scenario_masked_11 10 2)%Q.
Proof.
  refine (@top100_dominates numpy_ref numpy_ref_contract 11 11 scenario_masked_11
            scenario_ranking_11 (10, 2)%nat (0, 0)%nat scenario_masked_11_rectangular _
            scenario_ranking_11_run _ _ _).
  - simpl; lia.
  - vm_compute. tauto.
  - apply in_positions. simpl; lia.
  - apply not_in_pairs. vm_compute. reflexivity.
Defined.

Lemma get_precision_at_100_too_few_nodes_witness :
  exists msg,
    get_precision_at_100 scenario_splitter cosine_similarity_unused numpy_ref
                         (Some HAMMING) small_world
    = (Raise (ValueError msg), fitted (graph (self small_world)) small_world).
Proof.
  refine (@get_precision_at_100_too_few_nodes
            exact_dtype StubModel nat _ scenario_splitter cosine_similarity_unused
            numpy_ref
            numpy_ref_contract HAMMING small_world _ _).
  - discriminate.
  - simpl; lia.
Defined.

Lemma get_precision_at_100_returns_witness :
  exists sim pairs,
    masked_similarities cosine_similarity_unused (Some DOT_PRODUCT) scenario_embedding
      = Ok sim /\
    top100 numpy_ref sim = Ok pairs /\
    length pairs = 100%nat /\
    get_precision_at_100 scenario_splitter cosine_similarity_unused numpy_ref
                         (Some DOT_PRODUCT) (scenario_world None None)
    = (Ok (inject_Z (Z.of_nat (count_tp scenario_graph pairs)) / 100)%Q,
       fitted scenario_graph (scenario_world None None)).
Proof.
  refine (@get_precision_at_100_returns
            exact_dtype StubModel nat _ scenario_splitter cosine_similarity_unused
            numpy_ref
            numpy_ref_contract DOT_PRODUCT (scenario_world None None) _ _).
  - discriminate.
  - simpl; lia.
Defined.

(* ===================================================================== *)
(** * More on the Evaluator's methods                                     *)
(* ===================================================================== *)

Lemma getitem_invalid {A} (a : list A) (i : Z) :
  ~ valid_index a i -> getitem a i = Raise IndexError.
Proof.
  unfold valid_index, getitem. intros Hi.
  set (n := Z.of_nat (length a)) in *.
  set (j := if (i <? 0)%Z then (i + n)%Z else i).
  assert (Hj : ~ (0 <= j < n)%Z) by (unfold j; destruct (Z.ltb_spec i 0); lia).
  destruct (Z.leb_spec 0 j); destruct (Z.ltb_spec j n); simpl; try reflexivity; lia.
Qed.

Lemma getitem_negative {A} (a : list A) (i : Z) :
  (- Z.of_nat (length a) <= i < 0)%Z ->
  getitem a i = getitem a (i + Z.of_nat (length a)).
Proof.
  intros Hi. unfold getitem.
  destruct (Z.ltb_spec i 0); [|lia].
  destruct (Z.ltb_spec (i + Z.of_nat (length a)) 0); [lia|]. reflexivity.
Qed.

Lemma mapR_raises {A B} (f : A -> result B) (l : list A) (x : A) :
  In x l -> is_ok (f x) = false -> exists e, mapR f l = Raise e.
Proof.
  intros Hin Hx. destruct (mapR f l) as [out|e] eqn:Em; [|eauto].
  destruct (In_nth_error _ _ Hin) as (k & Hk).
  destruct (mapR_nth_error _ _ Em _ Hk) as (y & Hy & _).
  rewrite Hy in Hx. discriminate.
Qed.

(** X10. A node id between -n and -1 is read from the end of the
    n-row embedding matrix: the edge vector of a pair of such ids is the
    edge vector of the ids shifted by n. *)
Theorem edge_embedding_negative_ids {dt : Dtype} (op : EdgeOperator) (E : ndarray)
        (u v : Z) :
  (- Z.of_nat (length E) <= u < 0)%Z ->
  (- Z.of_nat (length E) <= v < 0)%Z ->
  edge_embedding op E (u, v)
  = edge_embedding op E ((u + Z.of_nat (length E))%Z, (v + Z.of_nat (length E))%Z).
Proof.
  intros Hu Hv. unfold edge_embedding; simpl.
  now rewrite (@getitem_negative _ E u Hu), (@getitem_negative _ E v Hv).
Qed.

Lemma edge_embedding_negative_ids_witness :
  edge_embedding CONCAT scenario_embedding (-1, -10)%Z
  = edge_embedding CONCAT scenario_embedding
                   ((-1 + Z.of_nat (length scenario_embedding))%Z,
                    (-10 + Z.of_nat (length scenario_embedding))%Z).
Proof.
  apply (@edge_embedding_negative_ids exact_dtype CONCAT scenario_embedding (-1) (-10));
    simpl; lia.
Defined.

Section EvaluatorExtras.

Context {dt : Dtype} {M C : Type} {EM : EmbeddingModel M} {CE : ClassifierEstimator C}.

Variable splitter : Graph -> nat -> DotDict.
Variable roc_auc_score : list Z -> list Q -> Q.

Local Abbreviation World := (@World M C).
Local Abbreviation Py := (@Py M C).

(** X11. With an operator configured and a bundle that provides the
    subgraph and the edge ids, an edge id outside [-n, n) makes the call
    raise IndexError; the embedding model was refitted before. *)
Theorem get_edge_embeddings_index_error (sample_type : SampleType) (w w1 : World)
        (op : EdgeOperator) (b : DotDict) (g : Graph) (ids : list (Z * Z))
        (edge : Z * Z) :
  embedding_operator (self w) = Some op ->
  samples splitter w = (Ok b, w1) ->
  attr_graph b (graph_key sample_type) = Ok g ->
  attr_edge_ids b (ids_key sample_type) = Ok ids ->
  let E := get_embedding (fit g (embedding_model (self w))) in
  In edge ids ->
  ~ valid_index E (fst edge) \/ ~ valid_index E (snd edge) ->
  get_edge_embeddings splitter sample_type w = (Raise IndexError, fitted g w1).
Proof.
  intros Hop Hs Hg Hids E Hin Hbad.
  rewrite (@get_edge_embeddings_run dt M C EM splitter sample_type w w1 b g ids Hs Hg Hids), Hop.
  fold E. f_equal.
  destruct (@mapR_raises _ _ (edge_embedding op E) ids edge Hin) as (e & He).
  { unfold edge_embedding. destruct Hbad as [Hu|Hv].
    - now rewrite (getitem_invalid Hu).
    - rewrite (getitem_invalid Hv). now destruct (getitem E (fst edge)). }
  rewrite He. f_equal.
  apply mapR_error in He. destruct He as ([u v] & _ & Hx).
  unfold edge_embedding in Hx; simpl in Hx.
  destruct (getitem E u) as [eu|e1] eqn:Eu.
  - destruct (getitem E v) as [ev|e2] eqn:Ev; [discriminate|].
    injection Hx as <-. now apply getitem_error in Ev.
  - injection Hx as <-. now apply getitem_error in Eu.
Qed.

(** X12. The three-way dispatch of get_node_embeddings: when the call
    returns, the last thing done to the embedding model was a fit, on the
    full graph when no sample type is given and on the cached bundle's
    train or test subgraph otherwise, and the matrix returned is the one
    the model holds after that fit. *)
Theorem get_node_embeddings_fresh (sample_type : option SampleType) (w w' : World)
        (E : ndarray) :
  get_node_embeddings splitter sample_type w = (Ok E, w') ->
  exists g,
    E = get_embedding (embedding_model (self w')) /\
    hd_error (trace w') = Some (EvFit g) /\
    match sample_type with
    | None => g = graph (self w)
    | Some t => exists b, _samples (self w') = Some b /\
                          attr_graph b (graph_key t) = Ok g
    end.
Proof.
  unfold get_node_embeddings, bind, lift, model_fit, model_get_embedding, gets.
  destruct sample_type as [[]|]; cbv beta iota.
  - destruct (samples splitter w) as [[s|e] w1] eqn:Hs; [|discriminate].
    destruct (attr_graph s "G_train") as [g|e] eqn:Hg; [|discriminate].
    intros [= <- <-]. exists g. split; [reflexivity|]. split; [reflexivity|].
    exists s. split; [apply (@samples_inv M C splitter w w1 s Hs) | exact Hg].
  - destruct (samples splitter w) as [[s|e] w1] eqn:Hs; [|discriminate].
    destruct (attr_graph s "G_test") as [g|e] eqn:Hg; [|discriminate].
    intros [= <- <-]. exists g. split; [reflexivity|]. split; [reflexivity|].
    exists s. split; [apply (@samples_inv M C splitter w w1 s Hs) | exact Hg].
  - intros [= <- <-]. eexists. split; [reflexivity|]. split; reflexivity.
Qed.

(** ** Running get_roc_auc_score *)

(** The world after the classifier was fitted. *)
Definition clf_fitted (x : list (list Q)) (y : list Z) (c : C) (w : World) : World :=
  mkWorld (mkEvaluator (graph (self w)) (embedding_model (self w))
                       (Some (clf_fit x y c)) (embedding_operator (self w))
                       (_samples (self w)))
          (EvClfFit x y :: trace w).

(** The world after the classifier was asked for probabilities. *)
Definition proba_asked (x : list (list Q)) (w : World) : World :=
  mkWorld (self w) (EvPredictProba x :: trace w).

Lemma get_roc_auc_score_run (w w1 : World) (c : C) (op : EdgeOperator) (b : DotDict)
      (g_train g_test : Graph) (ids_train ids_test : list (Z * Z))
      (y_train y_test : list Z) (x_train x_test : list (list Q)) :
  classifier (self w) = Some c ->
  clf_bool c = Ok true ->
  embedding_operator (self w) = Some op ->
  samples splitter w = (Ok b, w1) ->
  attr_graph b "G_train" = Ok g_train ->
  attr_graph b "G_test" = Ok g_test ->
  attr_edge_ids b "edge_ids_train" = Ok ids_train ->
  attr_edge_ids b "edge_ids_test" = Ok ids_test ->
  attr_labels b "edge_labels_train" = Ok y_train ->
  attr_labels b "edge_labels_test" = Ok y_test ->
  mapR (edge_embedding op (get_embedding (fit g_train (embedding_model (self w)))))
       ids_train = Ok x_train ->
  mapR (edge_embedding op
          (get_embedding (fit g_test (fit g_train (embedding_model (self w))))))
       ids_test = Ok x_test ->
  get_roc_auc_score splitter roc_auc_score w =
  (match mapR (fun row => getitem row 1%Z)
              (predict_proba (clf_fit x_train y_train c) x_test) with
   | Ok predictions => Ok (roc_auc_score y_test predictions)
   | Raise e => Raise e
   end,
   proba_asked x_test
     (fitted g_test (clf_fitted x_train y_train c (fitted g_train w1)))).
Proof.
  intros Hc Hb Hop Hs Hgtr Hgte Hitr Hite Hytr Hyte Hxtr Hxte.
  destruct (@samples_inv M C splitter w w1 b Hs) as (Hcache & Hgr & Hm & Hcl & Ho).
  pose proof (attr_graph_truthy _ _ Hgtr) as Ht.
  set (w2 := fitted g_train w1).
  set (w3 := clf_fitted x_train y_train c w2).
  set (w4 := fitted g_test w3).
  set (w5 := proba_asked x_test w4).
  assert (Hs2 : samples splitter w2 = (Ok b, w2)) by (apply samples_cached; assumption).
  assert (Hs3 : samples splitter w3 = (Ok b, w3)) by (apply samples_cached; assumption).
  assert (Hs5 : samples splitter w5 = (Ok b, w5)) by (apply samples_cached; assumption).
  assert (E1 : get_edge_embeddings splitter TRAIN w = (Ok x_train, w2)).
  { rewrite (@get_edge_embeddings_run dt M C EM splitter TRAIN w w1 b g_train ids_train
               Hs Hgtr Hitr), Hop, Hxtr. reflexivity. }
  assert (E2 : get_edge_embeddings splitter TEST w3 = (Ok x_test, w4)).
  { rewrite (@get_edge_embeddings_run dt M C EM splitter TEST w3 w3 b g_test ids_test
               Hs3 Hgte Hite).
    unfold w3, w2; simpl. rewrite Ho, Hop, Hm, Hxte. reflexivity. }
  assert (F : classifier_fit x_train y_train w2 = (Ok tt, w3)).
  { unfold classifier_fit, w3, w2, clf_fitted, bind, gets; simpl. now rewrite Hcl, Hc. }
  assert (P : classifier_predict_proba x_test w4
              = (Ok (predict_proba (clf_fit x_train y_train c) x_test), w5))
    by reflexivity.
  unfold get_roc_auc_score.
  rewrite bind_gets, Hc.
  erewrite bind_lift by (unfold not_classifier; rewrite Hb; reflexivity).
  rewrite bind_gets, Hop. cbv beta iota delta [negb orb not_obj].
  erewrite bind_ok by exact E1.
  erewrite bind_ok by exact Hs2.
  erewrite bind_lift by exact Hytr.
  erewrite bind_ok by exact F.
  erewrite bind_ok by exact E2.
  erewrite bind_ok by exact P.
  destruct (mapR (fun row => getitem row 1%Z)
                 (predict_proba (clf_fit x_train y_train c) x_test))
    as [predictions|e] eqn:Hpred.
  - erewrite bind_lift by reflexivity.
    erewrite bind_ok by exact Hs5.
    erewrite bind_lift by exact Hyte.
    reflexivity.
  - reflexivity.
Qed.


(** X14. With an operator set, a classifier set whose truth value is
    True, a bundle holding its six fields and edge ids that index the
    embedding matrices, a probability matrix with a row that has no second
    column makes the call raise IndexError, after both fits of the model
    and the fit of the classifier were done. *)
Theorem get_roc_auc_score_missing_column (w w1 : World) (c : C) (op : EdgeOperator)
        (b : DotDict) (g_train g_test : Graph) (ids_train ids_test : list (Z * Z))
        (y_train y_test : list Z) (x_train x_test : list (list Q)) (row : list Q) :
  classifier (self w) = Some c ->
  clf_bool c = Ok true ->
  embedding_operator (self w) = Some op ->
  samples splitter w = (Ok b, w1) ->
  attr_graph b "G_train" = Ok g_train ->
  attr_graph b "G_test" = Ok g_test ->
  attr_edge_ids b "edge_ids_train" = Ok ids_train ->
  attr_edge_ids b "edge_ids_test" = Ok ids_test ->
  attr_labels b "edge_labels_train" = Ok y_train ->
  attr_labels b "edge_labels_test" = Ok y_test ->
  mapR (edge_embedding op (get_embedding (fit g_train (embedding_model (self w)))))
       ids_train = Ok x_train ->
  mapR (edge_embedding op
          (get_embedding (fit g_test (fit g_train (embedding_model (self w))))))
       ids_test = Ok x_test ->
  In row (predict_proba (clf_fit x_train y_train c) x_test) ->
  (length row < 2)%nat ->
  exists w',
    get_roc_auc_score splitter roc_auc_score w = (Raise IndexError, w') /\
    embedding_model (self w') = fit g_test (fit g_train (embedding_model (self w))) /\
    classifier (self w') = Some (clf_fit x_train y_train c).
Proof.
  intros Hc Hb Hop Hs Hgtr Hgte Hitr Hite Hytr Hyte Hxtr Hxte Hrow Hlen.
  rewrite (@get_roc_auc_score_run w w1 c op b g_train g_test ids_train ids_test
             y_train y_test x_train x_test
             Hc Hb Hop Hs Hgtr Hgte Hitr Hite Hytr Hyte Hxtr Hxte).
  destruct (@samples_inv M C splitter w w1 b Hs) as (Hcache & Hgr & Hm & Hcl & Ho).
  destruct (@mapR_raises _ _ (fun r => getitem r 1%Z) _ row Hrow) as (e & He).
  { rewrite getitem_invalid; [reflexivity|]. unfold valid_index. lia. }
  rewrite He.
  assert (e = IndexError) as ->.
  { apply mapR_error in He. destruct He as (r & _ & Hr). now apply getitem_error in Hr. }
  eexists. split; [reflexivity|]. simpl. rewrite Hm. split; reflexivity.
Qed.

End EvaluatorExtras.

(* ===================================================================== *)
(** * What no method changes                                              *)
(* ===================================================================== *)

Section Frame.

Context {dt : Dtype} {M C : Type} {EM : EmbeddingModel M} {CE : ClassifierEstimator C}.

Variable splitter : Graph -> nat -> DotDict.
Variable roc_auc_score : list Z -> list Q -> Q.
Variable cosine_similarity : ndarray -> ndarray.
Variable np : Numpy.

Local Abbreviation World := (@World M C).
Local Abbreviation Py := (@Py M C).

(** What holds between the world before a call and the world after it:
    same graph, same operator, a truthy cached bundle still cached, a
    classifier present exactly when one was present, and the earlier calls
    still on record. *)
Definition kept (w w' : World) : Prop :=
  graph (self w') = graph (self w) /\
  embedding_operator (self w') = embedding_operator (self w) /\
  (forall b, _samples (self w) = Some b -> truthy b = true ->
             _samples (self w') = Some b) /\
  (classifier (self w') = None <-> classifier (self w) = None) /\
  (exists events, trace w' = events ++ trace w).

Definition keeps {A} (c : Py A) : Prop := forall w, kept w (snd (c w)).

Lemma kept_refl (w : World) : kept w w.
Proof.
  split; [reflexivity|]. split; [reflexivity|]. split; [auto|].
  split; [reflexivity|]. now exists [].
Qed.

Lemma kept_event (e : Evaluator) (w : World) (ev : Event) :
  graph e = graph (self w) ->
  embedding_operator e = embedding_operator (self w) ->
  (forall b, _samples (self w) = Some b -> truthy b = true -> _samples e = Some b) ->
  (classifier e = None <-> classifier (self w) = None) ->
  kept w (mkWorld e (ev :: trace w)).
Proof.
  intros Hg Ho Hs Hc. split; [exact Hg|]. split; [exact Ho|].
  split; [exact Hs|]. split; [exact Hc|]. now exists [ev].
Qed.

Lemma kept_trans (w1 w2 w3 : World) : kept w1 w2 -> kept w2 w3 -> kept w1 w3.
Proof.
  intros (Hg & Ho & Hs & Hc & (ev & Ht)) (Hg' & Ho' & Hs' & Hc' & (ev' & Ht')).
  split; [congruence|]. split; [congruence|].
  split; [intros b Hb Htr; apply Hs'; auto|].
  split; [now rewrite Hc', Hc|].
  exists (ev' ++ ev). now rewrite Ht', Ht, app_assoc.
Qed.

Lemma keeps_ret {A} (a : A) : keeps (ret a).
Proof. intros w. apply kept_refl. Qed.

Lemma keeps_raise {A} (e : exn) : keeps (@raise M C A e).
Proof. intros w. apply kept_refl. Qed.

Lemma keeps_lift {A} (r : result A) : keeps (lift r).
Proof. intros w. apply kept_refl. Qed.

Lemma keeps_gets {A} (f : Evaluator -> A) : keeps (gets f).
Proof. intros w. apply kept_refl. Qed.

Lemma keeps_bind {A B} (c : Py A) (k : A -> Py B) :
  keeps c -> (forall a, keeps (k a)) -> keeps (bind c k).
Proof.
  intros Hc Hk w. unfold bind. specialize (Hc w).
  destruct (c w) as [[a|e] w1]; simpl in *; [|exact Hc].
  eapply kept_trans; [exact Hc | apply Hk].
Qed.

Lemma keeps_samples : keeps (samples splitter).
Proof.
  intros w. rewrite samples_run.
  destruct (_samples (self w)) as [d|] eqn:E; [destruct (truthy d) eqn:T|]; simpl.
  - apply kept_refl.
  - apply kept_event; simpl; try reflexivity. intros b Hb Htr. congruence.
  - apply kept_event; simpl; try reflexivity. intros b Hb. congruence.
Qed.

Lemma keeps_model_fit (g : Graph) : keeps (model_fit g).
Proof.
  intros w. unfold model_fit; simpl.
  apply kept_event; simpl; try reflexivity. auto.
Qed.

Lemma keeps_classifier_fit (x : list (list Q)) (y : list Z) : keeps (classifier_fit x y).
Proof.
  intros w. unfold classifier_fit.
  destruct (classifier (self w)) as [c|] eqn:E; simpl; [|apply kept_refl].
  apply kept_event; simpl; try reflexivity; auto.
  split; intros Hx; congruence.
Qed.

Lemma keeps_classifier_predict_proba (x : list (list Q)) :
  keeps (classifier_predict_proba x).
Proof.
  intros w. unfold classifier_predict_proba.
  destruct (classifier (self w)) as [c|] eqn:E; simpl; [|apply kept_refl].
  apply kept_event; simpl; try reflexivity; auto.
Qed.

Ltac keeps_step :=
  first [ apply keeps_ret | apply keeps_raise | apply keeps_lift | apply keeps_gets
        | apply keeps_samples | apply keeps_model_fit | apply keeps_classifier_fit
        | apply keeps_classifier_predict_proba
        | apply keeps_bind; [|intros ?] ].

Lemma keeps_get_node_embeddings (sample_type : option SampleType) :
  keeps (get_node_embeddings splitter sample_type).
Proof.
  unfold get_node_embeddings, model_get_embedding.
  destruct sample_type as [[]|]; repeat keeps_step.
Qed.

Lemma keeps_get_edge_embeddings (sample_type : SampleType) :
  keeps (get_edge_embeddings splitter sample_type).
Proof.
  unfold get_edge_embeddings, train_node_embeddings, test_node_embeddings.
  apply keeps_bind.
  { destruct (SampleType_eqb sample_type TRAIN); apply keeps_get_node_embeddings. }
  intros E. repeat keeps_step.
  repeat match goal with |- keeps (if ?b then _ else _) => destruct b end;
    keeps_step.
Qed.

Ltac keeps_method_step :=
  first [ apply keeps_get_edge_embeddings | apply keeps_get_node_embeddings
        | keeps_step ].

(** X15. No method of the Evaluator, whether it returns or raises, changes
    the graph or the operator, replaces a truthy cached bundle, installs or
    removes a classifier, or drops an earlier call from the record. *)
Theorem evaluator_methods_keep_configuration :
  keeps (samples splitter) /\
  (forall sample_type, keeps (get_node_embeddings splitter sample_type)) /\
  (forall sample_type, keeps (get_edge_embeddings splitter sample_type)) /\
  keeps (get_roc_auc_score splitter roc_auc_score) /\
  (forall measure, keeps (get_precision_at_100 splitter cosine_similarity np measure)).
Proof.
  split; [apply keeps_samples|].
  split; [apply keeps_get_node_embeddings|].
  split; [apply keeps_get_edge_embeddings|].
  split.
  - unfold get_roc_auc_score. apply keeps_bind; [apply keeps_gets|]. intros clf.
    apply keeps_bind; [apply keeps_lift|]. intros no_classifier.
    apply keeps_bind; [apply keeps_gets|]. intros op.
    destruct (no_classifier || not_obj op)%bool; [apply keeps_raise|].
    repeat keeps_method_step.
  - intros measure. unfold get_precision_at_100. repeat keeps_method_step.
Qed.

End Frame.

(* ===================================================================== *)
(** * The ranked pairs are distinct positions                             *)
(* ===================================================================== *)

Lemma unravel_injective (c x y : nat) : unravel c x = unravel c y -> x = y.
Proof.
  unfold unravel. intros [= Hd Hm].
  destruct c as [|c]; [simpl in Hm; exact Hm|].
  rewrite (Nat.div_mod_eq x (S c)), (Nat.div_mod_eq y (S c)). now rewrite Hd, Hm.
Qed.

Lemma filter_split_length {A} (f : A -> bool) (l : list A) :
  (length (filter f l) + length (filter (fun x => negb (f x)) l))%nat = length l.
Proof.
  induction l as [|x l IH]; simpl; [reflexivity|].
  destruct (f x); simpl; lia.
Qed.

Section Distinct.

Variable np : Numpy.
Hypothesis Hnp : NumpyContract np.

Lemma top100_nodup_incl (r c : nat) (m : ndarray) (pairs : list (nat * nat)) :
  rectangular r c m -> (100 <= r * c)%nat ->
  top100 np m = Ok pairs ->
  NoDup pairs /\ incl pairs (positions r c).
Proof.
  intros Hrect Hsize Ht.
  destruct (top100_run Hnp Hrect Hsize) as (part & Ep & Ht').
  rewrite Ht in Ht'. injection Ht' as ->.
  pose proof (reorder_perm Hnp (ravel m) (lastn 100 part)) as Hperm.
  pose proof (argpartition_perm Hnp _ _ Ep) as Hpart.
  rewrite (ravel_length Hrect) in Hpart.
  assert (Hnd : NoDup part)
    by (apply (Permutation_NoDup (Permutation_sym Hpart)), seq_NoDup).
  assert (Hlast : NoDup (lastn 100 part)).
  { unfold lastn. rewrite <- (firstn_skipn (length part - 100) part) in Hnd.
    now apply NoDup_app_remove_l in Hnd. }
  split.
  - apply NoDup_map_NoDup_ForallPairs.
    + intros x y _ _. apply unravel_injective.
    + apply (Permutation_NoDup (Permutation_sym Hperm)), Hlast.
  - intros p Hp. apply in_map_iff in Hp. destruct Hp as (x & <- & Hx).
    apply (Permutation_in _ Hperm) in Hx.
    assert (Hxb : (x < r * c)%nat).
    { apply perm_seq_bound in Hpart. rewrite Forall_forall in Hpart. apply Hpart.
      unfold lastn in Hx.
      rewrite <- (firstn_skipn (length part - 100) part). apply in_or_app. now right. }
    assert (Hc : (0 < c)%nat) by (destruct c; [rewrite Nat.mul_0_r in Hxb|]; lia).
    apply in_positions. unfold unravel; simpl. split.
    + apply Nat.Div0.div_lt_upper_bound. lia.
    + apply Nat.mod_upper_bound. lia.
Qed.

(** X16. On an array of at least 100 entries no position is ranked twice,
    and every ranked pair is a position of the array. *)
Theorem top100_distinct_positions (r c : nat) (m : ndarray) (pairs : list (nat * nat)) :
  rectangular r c m -> (100 <= r * c)%nat ->
  top100 np m = Ok pairs ->
  NoDup pairs /\ incl pairs (positions r c).
Proof. apply top100_nodup_incl. Qed.

(** X17. On a graph of 10 to 14 nodes the lower triangle has fewer than
    100 positions, so whatever the similarities are, at least 9 of the 100
    ranked pairs lie on or above the diagonal. *)
Theorem top100_reaches_past_the_lower_triangle
        (n : nat) (m : ndarray) (pairs : list (nat * nat)) :
  rectangular n n m -> (10 <= n <= 14)%nat ->
  top100 np m = Ok pairs ->
  (9 <= length (filter (fun p => negb (below_diagonal p)) pairs))%nat.
Proof.
  intros Hrect Hn Ht.
  assert (Hsize : (100 <= n * n)%nat) by nia.
  destruct (top100_nodup_incl Hrect Hsize Ht) as [Hnd Hincl].
  pose proof (top100_never_clamps Hnp Hrect Hsize Ht) as Hlen.
  assert (Hbelow : (length (filter below_diagonal pairs) <= 91)%nat).
  { apply Nat.le_trans with (length (filter below_diagonal (positions n n))).
    - apply NoDup_incl_length; [now apply NoDup_filter|].
      intros p Hp. apply filter_In in Hp. apply filter_In. split; [|tauto].
      apply Hincl. tauto.
    - assert (Hcases : (n = 10 \/ n = 11 \/ n = 12 \/ n = 13 \/ n = 14)%nat) by lia.
      destruct Hcases as [->|[->|[->|[->| ->]]]]; vm_compute; lia. }
  pose proof (filter_split_length below_diagonal pairs). lia.
Qed.

End Distinct.

Lemma top100_distinct_positions_witness :
  NoDup scenario_ranking_11 /\ incl scenario_ranking_11 (positions 11 11).
Proof.
  refine (@top100_distinct_positions numpy_ref numpy_ref_contract 11 11
            scenario_masked_11 scenario_ranking_11
            scenario_masked_11_rectangular _ scenario_ranking_11_run).
  simpl; lia.
Defined.

Lemma top100_reaches_past_the_lower_triangle_witness :
  (9 <= length (filter (fun p => negb (below_diagonal p)) scenario_ranking_11))%nat.
Proof.
  refine (@top100_reaches_past_the_lower_triangle numpy_ref numpy_ref_contract 11
            scenario_masked_11 scenario_ranking_11
            scenario_masked_11_rectangular _ scenario_ranking_11_run).
  lia.
Defined.

(* ===================================================================== *)
(** * Further runs of the scenario                                        *)
(* ===================================================================== *)

Lemma get_edge_embeddings_index_error_witness :
  get_edge_embeddings out_of_range_splitter TRAIN (scenario_world None (Some CONCAT))
  = (Raise IndexError,
     fitted scenario_graph
            (refreshed out_of_range_splitter (scenario_world None (Some CONCAT)))).
Proof.
  refine (@get_edge_embeddings_index_error
            exact_dtype StubModel nat _ out_of_range_splitter TRAIN
            (scenario_world None (Some CONCAT))
            (refreshed out_of_range_splitter (scenario_world None (Some CONCAT)))
            CONCAT (out_of_range_splitter scenario_graph 0)
            scenario_graph [(0, 1); (3, 10)]%Z (3, 10)%Z _ _ _ _ _ _);
    try reflexivity.
  - simpl. tauto.
  - right. unfold valid_index. simpl. lia.
Defined.

Lemma get_node_embeddings_fresh_witness :
  exists g,
    scenario_embedding
    = get_embedding
        (embedding_model
           (self (fitted (mkGraph (nodes scenario_graph) [(2, 3)]%Z)
                         (refreshed scenario_splitter (scenario_world None None))))) /\
    hd_error (trace (fitted (mkGraph (nodes scenario_graph) [(2, 3)]%Z)
                            (refreshed scenario_splitter (scenario_world None None))))
    = Some (EvFit g) /\
    exists b,
      _samples (self (fitted (mkGraph (nodes scenario_graph) [(2, 3)]%Z)
                             (refreshed scenario_splitter (scenario_world None None))))
      = Some b /\
      attr_graph b (graph_key TEST) = Ok g.
Proof.
  refine (@get_node_embeddings_fresh
            StubModel nat _ scenario_splitter (Some TEST) (scenario_world None None)
            (fitted (mkGraph (nodes scenario_graph) [(2, 3)]%Z)
                    (refreshed scenario_splitter (scenario_world None None)))
            scenario_embedding _).
  reflexivity.
Defined.


Lemma get_roc_auc_score_missing_column_witness :
  exists w',
    get_roc_auc_score scenario_splitter roc_auc_score_ref one_column_world
    = (Raise IndexError, w') /\
    embedding_model (self w')
    = fit (mkGraph (nodes scenario_graph) [(2, 3)]%Z)
          (fit (mkGraph (nodes scenario_graph) [(0, 1)]%Z)
               (embedding_model (self one_column_world))) /\
    classifier (self w')
    = Some (clf_fit (scenario_x_train HADAMARD) [1; 0]%Z tt).
Proof.
  refine (@get_roc_auc_score_missing_column
            exact_dtype StubModel unit _ _ scenario_splitter roc_auc_score_ref
            one_column_world
            (refreshed scenario_splitter one_column_world)
            tt HADAMARD (scenario_bundle scenario_graph)
            (mkGraph (nodes scenario_graph) [(0, 1)]%Z)
            (mkGraph (nodes scenario_graph) [(2, 3)]%Z)
            [(0, 1); (2, -1)]%Z [(2, 3); (4, 5)]%Z [1; 0]%Z [1; 0]%Z
            (scenario_x_train HADAMARD) (scenario_x_test HADAMARD) [1%Q]
            _ _ _ _ _ _ _ _ _ _ _ _ _ _);
    try reflexivity.
  - simpl. tauto.
  - simpl. lia.
Defined.
